(** * The identity agent and the identity service of linkerd2

    A shallow embedding of the two [main] packages that issue and renew
    workload certificates:

    - the identity agent (end-entity directory check, key and CSR
      generation, the renewal loop, response validation, refresh
      scheduling);
    - the start-up sequence of the identity service.

    Go values are embedded as follows.  [time.Duration] is an [int64]
    number of nanoseconds: a [Z] with the wrap-around of the
    multiplication written out.  [time.Time] is a [Z] number of
    nanoseconds since the epoch.  The file system is a finite map from
    paths to nodes.  A Go pair [(v, err)] is a pair of options, so that
    the code paths which return both or neither are representable.
    Calls into libraries that are not part of the two packages (x509,
    key generation, the RPC client, ...) are parameters or scripted
    inputs. *)

From Stdlib Require Import ZArith Lia List String Ascii.
From stdpp Require Import base gmap strings list fin_maps.
Import ListNotations.

Local Open Scope string_scope.
Local Open Scope Z_scope.

(** ** Package [time] *)

Module GoTime.

(** [time.Duration]: int64 nanoseconds. *)
Definition Duration := Z.
(** [time.Time], as nanoseconds since the epoch. *)
Definition Time := Z.

Definition minDuration : Duration := - 2 ^ 63.
Definition maxDuration : Duration := 2 ^ 63 - 1.

Definition Nanosecond : Duration := 1.
Definition Microsecond : Duration := 1000 * Nanosecond.
Definition Millisecond : Duration := 1000 * Microsecond.
Definition Second : Duration := 1000 * Millisecond.
Definition Minute : Duration := 60 * Second.
Definition Hour : Duration := 60 * Minute.

(** Two's complement reduction of an integer to int64. *)
Definition wrap64 (z : Z) : Z := (z + 2 ^ 63) mod 2 ^ 64 - 2 ^ 63.

Definition in_int64 (z : Z) : Prop := minDuration <= z <= maxDuration.

(** int64 multiplication and (truncated) division. *)
Definition mul64 (a b : Z) : Z := wrap64 (a * b).
Definition div64 (a b : Z) : Z := wrap64 (Z.quot a b).

(** [t.Sub(u)]: the difference, saturated to the range of Duration. *)
Definition Sub (t u : Time) : Duration :=
  if t - u <? minDuration then minDuration
  else if maxDuration <? t - u then maxDuration
  else t - u.

(** [time.Until(t)] when the clock reads [now]. *)
Definition Until (now t : Time) : Duration := Sub t now.

(** [t.Before(u)] and [t.After(u)]. *)
Definition Before (t u : Time) : bool := t <? u.
Definition After (t u : Time) : bool := u <? t.

End GoTime.
Import GoTime.

(** ** Refresh scheduling *)

Definition MIN_REFRESH_TIME : Duration := 1 * Second.
Definition MAX_REFRESH_TIME : Duration := 24 * Hour.

(** [beforeExpiry(t)], with the reading [now] of the clock made by
    [time.Until]. *)
Definition beforeExpiry (now t : Time) : Duration :=
  let expiry := Until now t in
  if expiry <? MIN_REFRESH_TIME then MIN_REFRESH_TIME
  else
    let r := mul64 (div64 expiry Second) (800 * Millisecond) in
    if MAX_REFRESH_TIME <? r then MAX_REFRESH_TIME
    else r.

(** The interval the specification describes: the remaining validity
    scaled by the fixed fraction, clamped to
    [MIN_REFRESH_TIME, MAX_REFRESH_TIME]. *)
Definition clamp (x lo hi : Z) : Z := Z.max lo (Z.min hi x).

Definition scaled (expiry : Duration) : Z :=
  Z.quot expiry Second * (800 * Millisecond).

Definition refreshIn_spec (now t : Time) : Duration :=
  clamp (scaled (Until now t)) MIN_REFRESH_TIME MAX_REFRESH_TIME.

(** ** Errors *)

Inductive Errno := ENOENT | EACCES | EISDIR | ENOTDIR | ELOOP | EIO.

Inductive error :=
| errorString (msg : string)                      (* errors.New, fmt.Errorf *)
| PathError (op path : string) (errno : Errno)    (* *os.PathError *)
| LibError (pkg msg : string).                    (* x509, grpc, ... *)

Definition Errno_string (e : Errno) : string :=
  match e with
  | ENOENT => "no such file or directory"
  | EACCES => "permission denied"
  | EISDIR => "is a directory"
  | ENOTDIR => "not a directory"
  | ELOOP => "too many levels of symbolic links"
  | EIO => "input/output error"
  end.

(** [err.Error()] *)
Definition Error (e : error) : string :=
  match e with
  | errorString msg => msg
  | PathError op path errno => op ++ " " ++ path ++ ": " ++ Errno_string errno
  | LibError pkg msg => pkg ++ ": " ++ msg
  end.

(** [os.IsNotExist(err)] *)
Definition IsNotExist (e : error) : bool :=
  match e with
  | PathError _ _ ENOENT => true
  | _ => false
  end.

(** The result of a library call that returns [(v, err)] with exactly
    one of the two set. *)
Inductive result (A : Type) :=
| Ok (a : A)
| Err (e : error).
Arguments Ok {A} a.
Arguments Err {A} e.

Abbreviation bytes := (list Byte.byte).

(** ** The file system *)

Module Fs.

(** [octal a b c] is the Go literal [0abc]. *)
Definition octal (a b c : Z) : Z := a * 64 + b * 8 + c.

(** A path names a directory, a regular file, or an entry that [stat]
    cannot resolve (a symbolic link that loops or dangles, a device
    error). *)
Inductive Node :=
| Directory (mode : Z)
| Regular (mode : Z) (data : bytes)
| Unresolvable (errno : Errno).

Record FileInfo := { IsDir : bool; Mode : Z }.

(** [m.Perm()] *)
Definition Perm (m : Z) : Z := Z.land m (octal 7 7 7).

(** [m.Perm().String()]: a dash for the absent type bits, then the nine
    permission bits. *)
Definition Perm_bit (m : Z) (i : Z) (c : string) : string :=
  if Z.testbit m i then c else "-".

Definition Perm_String (m : Z) : string :=
  "-" ++ Perm_bit m 8 "r" ++ Perm_bit m 7 "w" ++ Perm_bit m 6 "x"
      ++ Perm_bit m 5 "r" ++ Perm_bit m 4 "w" ++ Perm_bit m 3 "x"
      ++ Perm_bit m 2 "r" ++ Perm_bit m 1 "w" ++ Perm_bit m 0 "x".

(** [os.Stat] *)
Definition os_Stat (fs : gmap string Node) (p : string) : result FileInfo :=
  match fs !! p with
  | None => Err (PathError "stat" p ENOENT)
  | Some (Directory m) => Ok {| IsDir := true; Mode := m |}
  | Some (Regular m _) => Ok {| IsDir := false; Mode := m |}
  | Some (Unresolvable e) => Err (PathError "stat" p e)
  end.

(** The process owns the files it meets and is not privileged: the owner
    bits decide. *)
Definition owner_readable (m : Z) : bool := Z.testbit m 8.
Definition owner_writable (m : Z) : bool := Z.testbit m 7.
Definition owner_searchable (m : Z) : bool := Z.testbit m 6.

(** The path of the directory that holds the entry [p]: the text before
    the last separator, [/] for an entry of the root and [.] for a path
    without separator. *)
Fixpoint beforeLastSlash (p : string) : option string :=
  match p with
  | EmptyString => None
  | String c p' =>
      match beforeLastSlash p' with
      | Some d => Some (String c d)
      | None => if Ascii.eqb c "/"%char then Some EmptyString else None
      end
  end.

Definition parentDir (p : string) : string :=
  match beforeLastSlash p with
  | None => "."
  | Some EmptyString => "/"
  | Some d => d
  end.

(** [ioutil.ReadFile] *)
Definition ioutil_ReadFile (fs : gmap string Node) (p : string) : result bytes :=
  match fs !! p with
  | None => Err (PathError "open" p ENOENT)
  | Some (Directory _) => Err (PathError "read" p EISDIR)
  | Some (Regular m data) =>
      if owner_readable m then Ok data else Err (PathError "open" p EACCES)
  | Some (Unresolvable e) => Err (PathError "open" p e)
  end.

(** [ioutil.WriteFile]: create with the given permissions, which needs a
    directory above the path that the owner may write and search, or
    truncate an existing file and keep its permissions. *)
Definition ioutil_WriteFile (fs : gmap string Node) (p : string) (data : bytes) (perm : Z)
  : option error * gmap string Node :=
  match fs !! p with
  | None =>
      match fs !! parentDir p with
      | None => (Some (PathError "open" p ENOENT), fs)
      | Some (Directory dm) =>
          if owner_writable dm && owner_searchable dm
          then (None, <[p := Regular perm data]> fs)
          else (Some (PathError "open" p EACCES), fs)
      | Some (Regular _ _) => (Some (PathError "open" p ENOTDIR), fs)
      | Some (Unresolvable e) => (Some (PathError "open" p e), fs)
      end
  | Some (Directory _) => (Some (PathError "open" p EISDIR), fs)
  | Some (Regular m _) =>
      if owner_writable m then (None, <[p := Regular m data]> fs)
      else (Some (PathError "open" p EACCES), fs)
  | Some (Unresolvable e) => (Some (PathError "open" p e), fs)
  end.

End Fs.
Import Fs.

(** ** Certificates, requests and responses *)

Record PrivateKey := { D : Z }.

(** [x509.Certificate], with the fields the agent reads. *)
Record Certificate := {
  Raw : bytes;
  NotBefore : Time;
  NotAfter : Time
}.

(** [*x509.CertPool] *)
Abbreviation CertPool := (list Certificate).

Definition NewCertPool : CertPool := [].
Definition AddCert (pool : CertPool) (c : Certificate) : CertPool := pool ++ [c].

(** [x509.VerifyOptions]; the pools are pointers. *)
Record VerifyOptions := {
  Roots : option CertPool;
  Intermediates : option CertPool
}.

Definition zeroVerifyOptions : VerifyOptions :=
  {| Roots := None; Intermediates := None |}.

Record CertifyRequest := {
  Identity : string;
  CertificateSigningRequest : bytes;
  Token : bytes
}.

Record CertifyResponse := {
  LeafCertificate : bytes;
  IntermediateCertificates : list bytes
}.

(** [tls.Crt] and [tls.Cred] of the issuer. *)
Record Crt := {
  Leaf : Certificate;
  TrustChain : list Certificate
}.

Record Cred := {
  Key : PrivateKey;
  Crt_of : Crt
}.

(** The library functions the agent calls.  [x509_Verify crt opts now] is
    [crt.Verify(opts)] when the library reads [now] from the clock (the
    agent leaves [opts.CurrentTime] unset). *)
Class Externals := {
  filepath_Join : string -> string -> string;
  x509_ParseCertificate : bytes -> result Certificate;
  x509_Verify : Certificate -> VerifyOptions -> Time -> option error;
  tls_DecodePEMCertPool : bytes -> result CertPool;
  tls_EncodePrivateKeyP8 : option PrivateKey -> bytes;
  sha256_hex : bytes -> string
}.

(** ** Observable behaviour *)

Inductive Level := InfoLevel | ErrorLevel | FatalLevel.

(** An argument of a log call, before formatting. *)
Inductive Arg :=
| AStr (s : string)
| AErr (e : error)
| ATime (t : Time)
| ADur (d : Duration).

Inductive Event :=
| ELog (lvl : Level) (format : string) (args : list Arg)
| EWriteFile (path : string) (data : bytes) (perm : Z)
| EGenerateKey
| ECreateCSR (id : string)
| EDial (addr : string)
| ECertify (req : CertifyRequest)
| ENewTimer (d : Duration)
| EExit (code : Z)
(* the identity service *)
| EVerifyIssuer (c : Crt) (roots : CertPool) (expectedName : string)
| EAdminServer (addr : string)   (* the statement go admin.StartServer(addr) *)
| EListen (addr : string)
| EServe (addr : string)         (* the go statement of the goroutine that serves *)
| EServing (addr : string)       (* srv.Serve(lis), inside that goroutine *)
| EGracefulStop.

(** What the process can see and change: the files, the clock (the
    sequence of its future readings and how many were made) and the trace
    of what it did so far, oldest first. *)
Record World := {
  fs : gmap string Node;
  clock : nat -> Time;
  reads : nat;
  trace : list Event
}.

(** A computation of the agent. *)
Definition M (A : Type) : Type := World -> A * World.

Definition ret {A : Type} (a : A) : M A := fun w => (a, w).

Definition bind {A B : Type} (m : M A) (k : A -> M B) : M B :=
  fun w => let (a, w') := m w in k a w'.

Notation "x <- m ;; k" := (bind m (fun x => k))
  (at level 100, m at next level, right associativity).
Notation "m ;;; k" := (bind m (fun _ => k))
  (at level 100, right associativity).

Definition emit (e : Event) : M unit :=
  fun w => (tt, {| fs := fs w; clock := clock w; reads := reads w;
                   trace := trace w ++ [e] |}).

(** [time.Now()] *)
Definition Now : M Time :=
  fun w => (clock w (reads w),
            {| fs := fs w; clock := clock w; reads := S (reads w);
               trace := trace w |}).

Definition Stat (p : string) : M (result FileInfo) :=
  fun w => (os_Stat (fs w) p, w).

Definition ReadFile (p : string) : M (result bytes) :=
  fun w => (ioutil_ReadFile (fs w) p, w).

Definition WriteFile (p : string) (data : bytes) (perm : Z) : M (option error) :=
  fun w =>
    let (err, fs') := ioutil_WriteFile (fs w) p data perm in
    (err, {| fs := fs'; clock := clock w; reads := reads w;
             trace := trace w ++ [EWriteFile p data perm] |}).

(** Files change under the agent between two rounds of its loop (the
    token is rotated by the platform). *)
Definition outside (f : gmap string Node -> gmap string Node) : M unit :=
  fun w => (tt, {| fs := f (fs w); clock := clock w; reads := reads w;
                   trace := trace w |}).

Definition log_Info (msg : string) : M unit := emit (ELog InfoLevel msg []).
Definition log_Infof (format : string) (args : list Arg) : M unit :=
  emit (ELog InfoLevel format args).
Definition log_Errorf (format : string) (args : list Arg) : M unit :=
  emit (ELog ErrorLevel format args).

(** [log.Fatal] and [log.Fatalf]: the entry, then [os.Exit(1)]. *)
Definition log_Fatalf (format : string) (args : list Arg) : M unit :=
  emit (ELog FatalLevel format args) ;;; emit (EExit 1).

(** ** The identity agent *)

Section Agent.
Context {ext : Externals}.

Definition loadVerifier (path : string) : M (VerifyOptions * option error) :=
  if String.eqb path "" then
    ret (zeroVerifyOptions, Some (errorString "No trust anchors specified"))
  else
    r <- ReadFile path ;;
    match r with
    | Err err => ret (zeroVerifyOptions, Some err)
    | Ok b =>
        match tls_DecodePEMCertPool b with
        | Err err => ret (zeroVerifyOptions, Some err)
        | Ok anchors =>
            ret ({| Roots := Some anchors; Intermediates := None |}, None)
        end
    end.

Definition checkNotExists (p : string) : M (option error) :=
  r <- Stat p ;;
  match r with
  | Ok _ => ret (Some (errorString ("Already exists: " ++ p)))
  | Err err => if IsNotExist err then ret None else ret (Some err)
  end.

Definition checkEndEntityDir (dir : string)
  : M (string * string * string * option error) :=
  if String.eqb dir "" then
    ret ("", "", "", Some (errorString "No end entity directory specified"))
  else
    r <- Stat dir ;;
    match r with
    | Err err => ret ("", "", "", Some err)
    | Ok s =>
        if negb (IsDir s) then
          ret ("", "", "", Some (errorString ("Not a directory: " ++ dir)))
        else if Perm (Mode s) =? octal 7 0 0 then
          ret ("", "", "",
               Some (errorString ("Must have permissions 0700: " ++ dir
                                  ++ "; got " ++ Perm_String (Perm (Mode s)))))
        else
          let keyPath := filepath_Join dir "key" in
          err <- checkNotExists keyPath ;;
          match err with
          | Some _ => ret ("", "", "", err)
          | None =>
              let csrPath := filepath_Join dir "csr" in
              err <- checkNotExists csrPath ;;
              match err with
              | Some _ => ret ("", "", "", err)
              | None =>
                  let crtPath := filepath_Join dir "crt.pem" in
                  err <- checkNotExists crtPath ;;
                  match err with
                  | Some _ => ret ("", "", "", err)
                  | None => ret (keyPath, csrPath, crtPath, None)
                  end
              end
          end
    end.

(** A library result as the Go pair [(v, err)]. *)
Definition pair_of {A : Type} (r : result A) : option A * option error :=
  match r with
  | Ok a => (Some a, None)
  | Err e => (None, Some e)
  end.

(** [generateAndStoreKey(p)]; [gen] is what [tls.GenerateKey()] returns
    this time.  When the generation fails the key is nil, and
    [tls.EncodePrivateKeyP8] is called on it: a call that panics there
    does not return and ends the process, so that this branch describes
    the code only as far as that call returns. *)
Definition generateAndStoreKey (gen : result PrivateKey) (p : string)
  : M (option PrivateKey * option error) :=
  emit EGenerateKey ;;;
  let '(key, err) := pair_of gen in
  match err with
  | None => ret (key, err)
  | Some _ =>
      err <- WriteFile p (tls_EncodePrivateKeyP8 key) (octal 4 0 0) ;;
      ret (key, err)
  end.

(** [generateAndStoreCSR(p, id, key)]; [create] is
    [x509.CreateCertificateRequest] with its source of randomness fixed. *)
Definition generateAndStoreCSR
    (create : string -> option PrivateKey -> result bytes)
    (p id : string) (key : option PrivateKey) : M (bytes * option error) :=
  if String.eqb id "" then
    ret ([], Some (errorString "A non-empty identity is required"))
  else
    emit (ECreateCSR id) ;;;
    match create id key with
    | Err err =>
        ret ([], Some (errorString ("Failed to create CSR: " ++ Error err)))
    | Ok csrb =>
        werr <- WriteFile p csrb (octal 4 0 0) ;;
        match werr with
        | Some err =>
            ret ([], Some (errorString ("Failed to write CSR: " ++ Error err)))
        | None => ret (csrb, None)
        end
    end.

(** The loop of [validateAndStoreCrt] over the intermediates. *)
Fixpoint parseIntermediates (bs : list bytes) (pool : CertPool) : result CertPool :=
  match bs with
  | [] => Ok pool
  | b :: bs' =>
      match x509_ParseCertificate b with
      | Err err => Err err
      | Ok c => parseIntermediates bs' (AddCert pool c)
      end
  end.

Definition validateAndStoreCrt (rsp : CertifyResponse) (crtPath : string)
    (verify : VerifyOptions) : M (option Certificate * option error) :=
  let crtb := LeafCertificate rsp in
  if (length crtb =? 0)%nat then
    ret (None, Some (errorString "Certify response does not include a certificate"))
  else
    match x509_ParseCertificate crtb with
    | Err err => ret (None, Some err)
    | Ok crt =>
        match parseIntermediates (IntermediateCertificates rsp) NewCertPool with
        | Err err => ret (None, Some err)
        | Ok pool =>
            let verify := {| Roots := Roots verify; Intermediates := Some pool |} in
            t0 <- Now ;;
            match x509_Verify crt verify t0 with
            | Some err => ret (None, Some err)
            | None =>
                t1 <- Now ;;
                if Before t1 (NotBefore crt) then
                  ret (None, Some (errorString "Received a certificate that is not yet valid"))
                else
                  t2 <- Now ;;
                  if After t2 (NotAfter crt) then
                    ret (None, Some (errorString "Received a certificate that has expired"))
                  else
                    werr <- WriteFile crtPath crtb (octal 6 0 0) ;;
                    ret (Some crt, werr)
            end
        end
    end.

Definition fp (crt : Certificate) : string := sha256_hex (Raw crt).

(** The command line of the agent. *)
Record Flags := {
  addr : string;
  trustAnchorsPath : string;
  tokenPath : string;
  name : string;
  dir : string
}.

(** What the library calls made before the loop return in one run:
    [tls.GenerateKey], [x509.CreateCertificateRequest], [grpc.Dial]. *)
Record Startup := {
  keygen : result PrivateKey;
  csrgen : string -> option PrivateKey -> result bytes;
  dial : option error
}.

(** Which case of the [select] at the end of the loop body is taken. *)
Inductive Wake := TimerFired | StopSignal.

(** What the outside does during one round of the loop: the files it
    changes before the round, the answer of the identity service to the
    request, and whether the timer or a signal ends the wait. *)
Record Round := {
  changes : gmap string Node -> gmap string Node;
  certify : CertifyRequest -> result CertifyResponse;
  wake : Wake
}.

(** The variables of [main] that live across rounds. *)
Record LoopState := {
  certifyReq : CertifyRequest;
  crt : option Certificate
}.

(** How control leaves the loop body: by the [continue] of the timer
    case, or by running off the end of the [select]. *)
Inductive Control := Continue | EndOfBody.

Definition setToken (req : CertifyRequest) (tokenb : bytes) : CertifyRequest :=
  {| Identity := Identity req;
     CertificateSigningRequest := CertificateSigningRequest req;
     Token := tokenb |}.

(** The body of the [for] loop of [main]. *)
Definition loopBody (flags : Flags) (crtPath : string) (verify : VerifyOptions)
    (r : Round) (st : LoopState) : M (Control * LoopState) :=
  outside (changes r) ;;;
  (* Attempt to reload the token, in case it changed. *)
  tok <- ReadFile (tokenPath flags) ;;
  req <- match tok with
         | Err err =>
             log_Errorf "Failed to reload token: %s" [AErr err] ;;;
             ret (certifyReq st)
         | Ok tokenb => ret (setToken (certifyReq st) tokenb)
         end ;;
  emit (ECertify req) ;;;
  crt' <- match certify r req with
          | Err err =>
              log_Errorf "Failed to obtain certificate: %s" [AErr err] ;;;
              ret (crt st)
          | Ok rsp =>
              res <- validateAndStoreCrt rsp crtPath verify ;;
              match snd res with
              | Some err =>
                  log_Errorf "Failed to validate and store certificate: %s" [AErr err]
              | None => ret tt
              end ;;;
              ret (fst res)
          end ;;
  refreshIn <- match crt' with
               | Some c =>
                   now <- Now ;;
                   let refreshIn := beforeExpiry now (NotAfter c) in
                   log_Infof "id=%s; fp=%s; expiry=%s; refresh=%s"
                     [AStr (name flags); AStr (fp c); ATime (NotAfter c); ADur refreshIn] ;;;
                   ret refreshIn
               | None =>
                   let refreshIn := MIN_REFRESH_TIME in
                   log_Infof "NO CERTIFICATE; refresh=%s" [ADur refreshIn] ;;;
                   ret refreshIn
               end ;;
  emit (ENewTimer refreshIn) ;;;
  let st' := {| certifyReq := req; crt := crt' |} in
  match wake r with
  | TimerFired => ret (Continue, st')
  | StopSignal =>
      log_Info "Shutting down..." ;;;
      ret (EndOfBody, st')
  end.

(** The [for] loop, run for as many rounds as the outside is scripted
    for.  Either way of leaving the body starts the next round. *)
Fixpoint loop (flags : Flags) (crtPath : string) (verify : VerifyOptions)
    (rounds : list Round) (st : LoopState) : M LoopState :=
  match rounds with
  | [] => ret st
  | r :: rounds' =>
      res <- loopBody flags crtPath verify r st ;;
      match fst res with
      | Continue => loop flags crtPath verify rounds' (snd res)
      | EndOfBody => loop flags crtPath verify rounds' (snd res)
      end
  end.

(** How a run of [main] ends: the process has exited, or it is still in
    its loop when the script of the outside ends. *)
Inductive Outcome :=
| Exited (code : Z)
| InLoop (st : LoopState).

Definition fatal (format : string) (args : list Arg) : M Outcome :=
  log_Fatalf format args ;;; ret (Exited 1).

Definition main (flags : Flags) (su : Startup) (rounds : list Round) : M Outcome :=
  v <- loadVerifier (trustAnchorsPath flags) ;;
  match snd v with
  | Some err => fatal "Failed to load trust anchors: %s" [AErr err]
  | None =>
  let verify := fst v in
  d <- checkEndEntityDir (dir flags) ;;
  let '(keyPath, csrPath, crtPath, err) := d in
  match err with
  | Some err => fatal "Invalid end-entity directory: %s" [AErr err]
  | None =>
  k <- generateAndStoreKey (keygen su) keyPath ;;
  match snd k with
  | Some err => fatal (Error err) []
  | None =>
  let key := fst k in
  c <- generateAndStoreCSR (csrgen su) csrPath (name flags) key ;;
  match snd c with
  | Some err => fatal (Error err) []
  | None =>
  let csrb := fst c in
  if String.eqb (tokenPath flags) "" then fatal "-token must be specified" []
  else
  t <- ReadFile (tokenPath flags) ;;
  match t with
  | Err err => fatal "Failed to read token: %s" [AErr err]
  | Ok tokenb =>
  let certifyReq := {| Identity := name flags;
                       CertificateSigningRequest := csrb;
                       Token := tokenb |} in
  emit (EDial (addr flags)) ;;;
  match dial su with
  | Some err => fatal (Error err) []
  | None =>
  st <- loop flags crtPath verify rounds {| certifyReq := certifyReq; crt := None |} ;;
  ret (InLoop st)
  end end end end end end.

End Agent.

(** ** The identity service *)

Module IdentityService.

Record Flags := {
  addr : string;
  adminAddr : string;
  kubeConfigPath : string;
  controllerNS : string;
  trustDomain : string;
  trustAnchorsPath : string;
  issuerPath : string;
  issuanceLifetime : Duration;
  clockSkewAllowance : Duration
}.

Record TrustDomain := { controlNS : string; domain : string }.

Record Validity := { ClockSkewAllowance : Duration; Lifetime : Duration }.

Record CA := { Issuer : Cred; IssuerValidity : Validity }.

Record ClientSet := { kubeconfig : string }.

Record Validator := { client : ClientSet; dom : TrustDomain }.

Record Listener := { network : string; laddr : string }.

(** The packages of the repository and of Go that [main] calls. *)
Class Library := {
  idctl_NewTrustDomain : string -> string -> result TrustDomain;
  tls_ReadPEMCreds : gmap string Node -> string -> string -> result Cred;
  tls_Crt_Verify : Crt -> CertPool -> string -> option error;
  tls_NewCA : Cred -> Validity -> CA;
  k8s_NewClientSet : string -> result ClientSet;
  idctl_NewK8sTokenValidator : ClientSet -> TrustDomain -> result Validator;
  net_Listen : string -> string -> result Listener
}.

(** How a run of [main] ends: it exited at start-up, it has started the
    goroutine that serves and waits for a signal, or it has received one
    and returned. *)
Inductive Outcome :=
| Exited (code : Z)
| Serving
| Stopped.

Section Service.
Context {ext : Externals} {lib : Library}.

Definition fatal (format : string) (args : list Arg) : M Outcome :=
  log_Fatalf format args ;;; ret (Exited 1).

Definition ReadPEMCreds (keyPath crtPath : string) : M (result Cred) :=
  fun w => (tls_ReadPEMCreds (fs w) keyPath crtPath, w).

(** The body of the goroutine that serves.  It runs beside [main], in no
    order with what [main] does after the go statement. *)
Definition serveRoutine (flags : Flags) : M unit :=
  log_Infof "starting gRPC server on %s" [AStr (addr flags)] ;;;
  emit (EServing (addr flags)).

(** [main], as what its own goroutine does, in the order of the program.
    The two go statements are events of it; the bodies of the goroutines
    they start are not.  [stop] tells whether a signal ever arrives: the
    channel is buffered and registered first, so that the receive at the
    end finds it whenever it came. *)
Definition main (flags : Flags) (stop : bool) : M Outcome :=
  match idctl_NewTrustDomain (controllerNS flags) (trustDomain flags) with
  | Err err => fatal "Invalid trust domain: %s" [AStr (Error err)]
  | Ok dom =>
  tab <- ReadFile (trustAnchorsPath flags) ;;
  match tab with
  | Err err =>
      fatal "Failed to read trust anchors from %s: %s"
        [AStr (trustAnchorsPath flags); AErr err]
  | Ok tab =>
  match tls_DecodePEMCertPool tab with
  | Err err =>
      fatal "Failed to read trust anchors from %s: %s"
        [AStr (trustAnchorsPath flags); AErr err]
  | Ok trustAnchors =>
  creds <- ReadPEMCreds (filepath_Join (issuerPath flags) "key.pem")
                        (filepath_Join (issuerPath flags) "crt.pem") ;;
  match creds with
  | Err err => fatal "Failed to read CA from %s: %s" [AStr (issuerPath flags); AErr err]
  | Ok creds =>
  let err : option error := None in
  let expectedName :=
    "identity." ++ controllerNS flags ++ "." ++ trustDomain flags in
  emit (EVerifyIssuer (Crt_of creds) trustAnchors expectedName) ;;;
  match tls_Crt_Verify (Crt_of creds) trustAnchors expectedName with
  | Some verr =>
      fatal "Failed to verify issuer credentials for '%s' with trust anchors: %s"
        [AStr expectedName; AErr verr]
  | None =>
  let ca := tls_NewCA creds {| ClockSkewAllowance := clockSkewAllowance flags;
                               Lifetime := issuanceLifetime flags |} in
  match err with
  | Some err =>
      fatal "Failed to read issuer credentials from %s: %s"
        [AStr (issuerPath flags); AErr err]
  | None =>
  match k8s_NewClientSet (kubeConfigPath flags) with
  | Err err =>
      fatal "Failed to load kubeconfig: %s: %s" [AStr (kubeConfigPath flags); AErr err]
  | Ok k8s =>
  match idctl_NewK8sTokenValidator k8s dom with
  | Err err => fatal "Failed to initialize identity service: %s" [AErr err]
  | Ok v =>
  emit (EAdminServer (adminAddr flags)) ;;;
  emit (EListen (addr flags)) ;;;
  match net_Listen "tcp" (addr flags) with
  | Err err => fatal "Failed to listen on %s: %s" [AStr (addr flags); AErr err]
  | Ok lis =>
  emit (EServe (addr flags)) ;;;
  if stop then
    log_Infof "shutting down gRPC server on %s" [AStr (addr flags)] ;;;
    emit EGracefulStop ;;;
    ret Stopped
  else ret Serving
  end end end end end end end end end.

End Service.

End IdentityService.

(** ** Sample data

    A toy instance of the libraries, small enough to run the agent on:
    a certificate is three bytes (the tag of its issuer, the seconds at
    which its validity starts and ends), and it verifies when a root
    carries the tag of its issuer. *)

Module Sample.

Definition seconds (b : Byte.byte) : Time := Z.of_N (Byte.to_N b) * Second.

Definition parse (b : bytes) : result Certificate :=
  match b with
  | [_; nb; na] => Ok {| Raw := b; NotBefore := seconds nb; NotAfter := seconds na |}
  | _ => Err (LibError "x509" "malformed certificate")
  end.

Definition tag (c : Certificate) : Byte.byte := hd Byte.x00 (Raw c).

Definition signed_by (c : Certificate) (pool : option CertPool) : bool :=
  match pool with
  | Some cs => existsb (fun r => Byte.eqb (tag r) (tag c)) cs
  | None => false
  end.

Definition chain (c : Certificate) (opts : VerifyOptions) (now : Time) : option error :=
  if signed_by c (Roots opts) || signed_by c (Intermediates opts) then None
  else Some (LibError "x509" "certificate signed by unknown authority").

Definition toy : Externals := {|
  filepath_Join d n := d ++ "/" ++ n;
  x509_ParseCertificate := parse;
  x509_Verify := chain;
  tls_DecodePEMCertPool b :=
    match parse b with
    | Ok c => Ok [c]
    | Err e => Err e
    end;
  tls_EncodePrivateKeyP8 k :=
    match k with
    | Some _ => [Byte.x30]
    | None => []
    end;
  sha256_hex _ := "c0ffee"
|}.

(** The root, and a leaf it signed that is valid from second 2 to
    second 200. *)
Definition rootBytes : bytes := [Byte.x01; Byte.x00; Byte.xff].
Definition leafBytes : bytes := [Byte.x01; Byte.x02; Byte.xc8].
Definition otherBytes : bytes := [Byte.x07; Byte.x02; Byte.xc8].

Definition root : Certificate :=
  {| Raw := rootBytes; NotBefore := seconds Byte.x00; NotAfter := seconds Byte.xff |}.
Definition leaf : Certificate :=
  {| Raw := leafBytes; NotBefore := seconds Byte.x02; NotAfter := seconds Byte.xc8 |}.

Definition anchors : VerifyOptions := {| Roots := Some [root]; Intermediates := None |}.

Definition tokenBytes : bytes := [Byte.x74; Byte.x6f; Byte.x6b].

(** A clock that stands at second [s]. *)
Definition at_second (s : Z) : nat -> Time := fun _ => s * Second.

Definition world (files : gmap string Node) (s : Z) : World :=
  {| fs := files; clock := at_second s; reads := 0; trace := [] |}.

(** A fresh end-entity directory next to the trust anchors and the
    token, with the permissions [mode] on the directory. *)
Definition files (mode : Z) : gmap string Node :=
  <["/run/ee" := Directory mode]>
  (<["/run/anchors.pem" := Regular (octal 4 4 4) rootBytes]>
  (<["/run/token" := Regular (octal 4 4 4) tokenBytes]> ∅)).

Definition flags : Flags :=
  {| addr := "localhost:8083";
     trustAnchorsPath := "/run/anchors.pem";
     tokenPath := "/run/token";
     name := "web.default.serviceaccount.identity.linkerd.cluster.local";
     dir := "/run/ee" |}.

Definition startup : Startup :=
  {| keygen := Ok {| D := 42 |};
     csrgen := fun _ _ => Ok [Byte.x63; Byte.x73; Byte.x72];
     dial := None |}.

Definition request : CertifyRequest :=
  {| Identity := name flags;
     CertificateSigningRequest := [Byte.x63; Byte.x73; Byte.x72];
     Token := tokenBytes |}.

Definition response (leafb : bytes) (inter : list bytes) : CertifyResponse :=
  {| LeafCertificate := leafb; IntermediateCertificates := inter |}.

(** A round in which the files stay as they are and the service answers
    with [rsp]. *)
Definition round (rsp : result CertifyResponse) (wk : Wake) : Round :=
  {| changes := fun m => m; certify := fun _ => rsp; wake := wk |}.

End Sample.

(** ** Auxiliary notions for the statements *)

(** The checks of [checkEndEntityDir] on the directory itself, before it
    looks for the three files. *)
Definition directoryChecks (dir : string) : M (option error) :=
  if String.eqb dir "" then
    ret (Some (errorString "No end entity directory specified"))
  else
    r <- Stat dir ;;
    match r with
    | Err err => ret (Some err)
    | Ok s =>
        if negb (IsDir s) then
          ret (Some (errorString ("Not a directory: " ++ dir)))
        else if Perm (Mode s) =? octal 7 0 0 then
          ret (Some (errorString ("Must have permissions 0700: " ++ dir
                                  ++ "; got " ++ Perm_String (Perm (Mode s)))))
        else ret None
    end.

(** [os.Stat] finds something at the path. *)
Definition present (files : gmap string Node) (p : string) : Prop :=
  exists info, os_Stat files p = Ok info.

(** [os.Stat] reports that nothing is at the path. *)
Definition absent (files : gmap string Node) (p : string) : Prop :=
  files !! p = None.

(** The three artifacts of the end-entity directory, in the order in which
    [checkEndEntityDir] looks for them, and those looked for before a
    given one. *)
Definition artifacts : list string := ["key"; "csr"; "crt.pem"].

Definition checkedBefore (n : string) : list string :=
  if String.eqb n "key" then []
  else if String.eqb n "csr" then ["key"]
  else ["key"; "csr"].

(** The events by which the agent starts to work for its identity. *)
Definition isWork (e : Event) : bool :=
  match e with
  | EGenerateKey | ECreateCSR _ | EDial _ | ECertify _ | EWriteFile _ _ _ => true
  | _ => false
  end.

(** The response passes every check of [validateAndStoreCrt] when the
    clock is read at [clk n] by the verification of the chain and at
    [clk (n+1)] and [clk (n+2)] by the two checks of the validity window:
    the leaf is there and parses to [crt], the intermediates parse, [crt]
    verifies against the roots of [verify] with these intermediates, and
    the two readings are inside the window. *)
Definition Accepted {ext : Externals} (rsp : CertifyResponse) (verify : VerifyOptions)
    (clk : nat -> Time) (n : nat) (crt : Certificate) : Prop :=
  LeafCertificate rsp <> [] /\
  x509_ParseCertificate (LeafCertificate rsp) = Ok crt /\
  exists pool,
    parseIntermediates (IntermediateCertificates rsp) NewCertPool = Ok pool /\
    x509_Verify crt {| Roots := Roots verify; Intermediates := Some pool |} (clk n) = None /\
    NotBefore crt <= clk (S n) /\
    clk (S (S n)) <= NotAfter crt.

(** The phases of the loop body, named: the reload of the token, the
    request with the validation of its answer, the choice of the refresh
    interval, and the wait. *)
Section Phases.
Context {ext : Externals}.

Definition reloadToken (flags : Flags) (st : LoopState) : M CertifyRequest :=
  tok <- ReadFile (tokenPath flags) ;;
  match tok with
  | Err err =>
      log_Errorf "Failed to reload token: %s" [AErr err] ;;;
      ret (certifyReq st)
  | Ok tokenb => ret (setToken (certifyReq st) tokenb)
  end.

Definition obtainCertificate (crtPath : string) (verify : VerifyOptions)
    (r : Round) (st : LoopState) (req : CertifyRequest) : M (option Certificate) :=
  match certify r req with
  | Err err =>
      log_Errorf "Failed to obtain certificate: %s" [AErr err] ;;;
      ret (crt st)
  | Ok rsp =>
      res <- validateAndStoreCrt rsp crtPath verify ;;
      match snd res with
      | Some err =>
          log_Errorf "Failed to validate and store certificate: %s" [AErr err]
      | None => ret tt
      end ;;;
      ret (fst res)
  end.

Definition scheduleRefresh (flags : Flags) (crt' : option Certificate) : M Duration :=
  match crt' with
  | Some c =>
      now <- Now ;;
      let refreshIn := beforeExpiry now (NotAfter c) in
      log_Infof "id=%s; fp=%s; expiry=%s; refresh=%s"
        [AStr (name flags); AStr (fp c); ATime (NotAfter c); ADur refreshIn] ;;;
      ret refreshIn
  | None =>
      let refreshIn := MIN_REFRESH_TIME in
      log_Infof "NO CERTIFICATE; refresh=%s" [ADur refreshIn] ;;;
      ret refreshIn
  end.

Definition awaitWake (r : Round) (st' : LoopState) : M (Control * LoopState) :=
  match wake r with
  | TimerFired => ret (Continue, st')
  | StopSignal =>
      log_Info "Shutting down..." ;;;
      ret (EndOfBody, st')
  end.

End Phases.

(** What the reload of the token reads in a round, the request that the
    round sends, and what the reload logs. *)
Definition reloaded (flags : Flags) (r : Round) (w : World) : result bytes :=
  ioutil_ReadFile (changes r (fs w)) (tokenPath flags).

Definition nextRequest (flags : Flags) (r : Round) (st : LoopState) (w : World)
  : CertifyRequest :=
  match reloaded flags r w with
  | Ok tokenb => setToken (certifyReq st) tokenb
  | Err _ => certifyReq st
  end.

Definition reloadLog (flags : Flags) (r : Round) (w : World) : list Event :=
  match reloaded flags r w with
  | Ok _ => []
  | Err err => [ELog ErrorLevel "Failed to reload token: %s" [AErr err]]
  end.

(** What the wait logs. *)
Definition wakeLog (r : Round) : list Event :=
  match wake r with
  | TimerFired => []
  | StopSignal => [ELog InfoLevel "Shutting down..." []]
  end.

(** The requests sent in a trace, oldest first. *)
Fixpoint certifies (tr : list Event) : list CertifyRequest :=
  match tr with
  | [] => []
  | ECertify req :: tr' => req :: certifies tr'
  | _ :: tr' => certifies tr'
  end.

(** The writes made in a trace. *)
Fixpoint writes (tr : list Event) : list (string * bytes * Z) :=
  match tr with
  | [] => []
  | EWriteFile p data perm :: tr' => (p, data, perm) :: writes tr'
  | _ :: tr' => writes tr'
  end.

(** The same, said of the response itself and not through the loop of
    the code: the leaf is there and parses to [crt]; every intermediate
    of the response parses, to [inters] in the order of the response;
    [crt] verifies against the roots of [verify] with exactly [inters] as
    the pool of intermediates; and the two readings of the clock are
    inside the validity window. *)
Definition Verified {ext : Externals} (rsp : CertifyResponse) (verify : VerifyOptions)
    (clk : nat -> Time) (n : nat) (crt : Certificate) : Prop :=
  LeafCertificate rsp <> [] /\
  x509_ParseCertificate (LeafCertificate rsp) = Ok crt /\
  exists inters,
    Forall2 (fun b c => x509_ParseCertificate b = Ok c)
      (IntermediateCertificates rsp) inters /\
    x509_Verify crt {| Roots := Roots verify; Intermediates := Some inters |} (clk n) = None /\
    NotBefore crt <= clk (S n) /\
    clk (S (S n)) <= NotAfter crt.

(** What the reloads of the token read, round by round, in a run of the
    loop. *)
Fixpoint reloads {ext : Externals} (flags : Flags) (crtPath : string)
    (verify : VerifyOptions) (rounds : list Round) (st : LoopState) (w : World)
  : list (result bytes) :=
  match rounds with
  | [] => []
  | r :: rounds' =>
      let out := loopBody flags crtPath verify r st w in
      reloaded flags r w :: reloads flags crtPath verify rounds' (snd (fst out)) (snd out)
  end.

(** The tokens to send when the token held is [held] and the reloads read
    [rs]: what a reload reads when it succeeds, else what is held. *)
Fixpoint tokensToSend (held : bytes) (rs : list (result bytes)) : list bytes :=
  match rs with
  | [] => []
  | Ok tokenb :: rs' => tokenb :: tokensToSend tokenb rs'
  | Err _ :: rs' => held :: tokensToSend held rs'
  end.

(** The world after the events [evs] were appended to its trace. *)
Definition after (w : World) (evs : list Event) : World :=
  {| fs := fs w; clock := clock w; reads := reads w; trace := trace w ++ evs |}.



(** The name under which the issuer must verify. *)
Definition expectedName (flags : IdentityService.Flags) : string :=
  "identity." ++ IdentityService.controllerNS flags ++ "." ++
  IdentityService.trustDomain flags.

(** The issuer certificate and the trust anchors that the service loads
    from its files. *)
Definition loadedIssuer {ext : Externals} {lib : IdentityService.Library}
    (flags : IdentityService.Flags) (files : gmap string Node) : option (Crt * CertPool) :=
  match ioutil_ReadFile files (IdentityService.trustAnchorsPath flags) with
  | Ok tab =>
      match tls_DecodePEMCertPool tab with
      | Ok trustAnchors =>
          match IdentityService.tls_ReadPEMCreds files
                  (filepath_Join (IdentityService.issuerPath flags) "key.pem")
                  (filepath_Join (IdentityService.issuerPath flags) "crt.pem") with
          | Ok creds => Some (Crt_of creds, trustAnchors)
          | Err _ => None
          end
      | Err _ => None
      end
  | Err _ => None
  end.

(** The interval that a round chooses when it holds [oc] and the clock
    reads [now], and the line it logs about it. *)
Definition refreshOf (oc : option Certificate) (now : Time) : Duration :=
  match oc with
  | Some c => beforeExpiry now (NotAfter c)
  | None => MIN_REFRESH_TIME
  end.

Definition scheduleLog {ext : Externals} (flags : Flags) (oc : option Certificate)
    (now : Time) : Event :=
  match oc with
  | Some c =>
      ELog InfoLevel "id=%s; fp=%s; expiry=%s; refresh=%s"
        [AStr (name flags); AStr (fp c); ATime (NotAfter c);
         ADur (beforeExpiry now (NotAfter c))]
  | None => ELog InfoLevel "NO CERTIFICATE; refresh=%s" [ADur MIN_REFRESH_TIME]
  end.

(** What an event of the loop may be, for a loop that writes the
    certificate to [crtPath] and was entered with the request [req0]:
    a log entry that is not fatal, a request with the identity and the
    signing request of [req0], a write of the certificate file with mode
    0600, or a timer of a positive interval of at most
    [MAX_REFRESH_TIME]. *)
Definition roundEvent (crtPath : string) (req0 : CertifyRequest) (e : Event) : Prop :=
  match e with
  | ELog lvl _ _ => lvl <> FatalLevel
  | ECertify q =>
      Identity q = Identity req0 /\
      CertificateSigningRequest q = CertificateSigningRequest req0
  | EWriteFile p _ perm => p = crtPath /\ perm = octal 6 0 0
  | ENewTimer d => 0 < d <= MAX_REFRESH_TIME
  | _ => False
  end.

(** The events of the start-up of the agent before its loop. *)
Definition startupEvent (e : Event) : Prop :=
  match e with
  | EGenerateKey | ECreateCSR _ | EWriteFile _ _ _ | EDial _ => True
  | _ => False
  end.

(** The instances of the sample the statements are tried on. *)
Module SampleRuns.
Import Sample.

(** The end-entity directory with permissions [mode] in which [n] is
    already a file. *)
Definition occupied (mode : Z) (n : string) : gmap string Node :=
  <["/run/ee/" ++ n := Regular (octal 6 0 0) leafBytes]> (files mode).

(** The same, and [key] is a symbolic link to itself. *)
Definition looped (mode : Z) (n : string) : gmap string Node :=
  <["/run/ee/key" := Unresolvable ELOOP]> (occupied mode n).

(** The agent in its loop, holding the leaf, when the clock stands at
    second 100. *)
Definition holding : LoopState :=
  {| certifyReq := request; crt := Some leaf |}.

Definition running : World := world (files (octal 7 5 5)) 100.

(** An intermediate that the sample root did not sign a leaf for, and a
    leaf that chains to the roots only through it. *)
Definition interBytes : bytes := [Byte.x07; Byte.x00; Byte.xff].

Definition inter : Certificate :=
  {| Raw := interBytes; NotBefore := seconds Byte.x00; NotAfter := seconds Byte.xff |}.

Definition throughInter : Certificate :=
  {| Raw := otherBytes; NotBefore := seconds Byte.x02; NotAfter := seconds Byte.xc8 |}.

(** A round in which the service answers with an empty leaf. *)
Definition emptyAnswer : Round := round (Ok (response [] [])) TimerFired.

(** A round before which the platform rotates the token. *)
Definition newToken : bytes := [Byte.x6e; Byte.x65; Byte.x77].

Definition tokenRotated (wk : Wake) : Round :=
  {| changes := fun m => <["/run/token" := Regular (octal 4 4 4) newToken]> m;
     certify := fun _ => Ok (response leafBytes []);
     wake := wk |}.

(** A round in which the token cannot be read any more. *)
Definition tokenGone (wk : Wake) : Round :=
  {| changes := fun m => delete "/run/token" m;
     certify := fun _ => Ok (response leafBytes []);
     wake := wk |}.

End SampleRuns.

(** A toy instance of the packages under the identity service. *)
Module SampleService.
Import IdentityService.

Definition readCreds (files : gmap string Node) (keyPath crtPath : string) : result Cred :=
  match ioutil_ReadFile files crtPath with
  | Ok b =>
      match Sample.parse b with
      | Ok c => Ok {| Key := {| D := 7 |}; Crt_of := {| Leaf := c; TrustChain := [] |} |}
      | Err e => Err e
      end
  | Err e => Err e
  end.

Definition verifyIssuer (c : Crt) (roots : CertPool) (n : string) : option error :=
  if Sample.signed_by (Leaf c) (Some roots) then None
  else Some (LibError "x509" "certificate signed by unknown authority").

Definition toyLib : Library := {|
  idctl_NewTrustDomain ns d := Ok {| controlNS := ns; domain := d |};
  tls_ReadPEMCreds := readCreds;
  tls_Crt_Verify := verifyIssuer;
  tls_NewCA c v := {| Issuer := c; IssuerValidity := v |};
  k8s_NewClientSet p := Ok {| kubeconfig := p |};
  idctl_NewK8sTokenValidator k d := Ok {| client := k; dom := d |};
  net_Listen n a := Ok {| network := n; laddr := a |}
|}.

Definition flags : Flags :=
  {| addr := ":8083";
     adminAddr := ":9996";
     kubeConfigPath := "";
     controllerNS := "linkerd";
     trustDomain := "cluster.local";
     trustAnchorsPath := "/run/anchors.pem";
     issuerPath := "/run/issuer";
     issuanceLifetime := 24 * Hour;
     clockSkewAllowance := 0 |}.

(** The files of the service when the certificate of the issuer is
    [issuer]. *)
Definition files (issuer : bytes) : gmap string Node :=
  <["/run/issuer/crt.pem" := Regular (octal 4 4 4) issuer]>
  (<["/run/anchors.pem" := Regular (octal 4 4 4) Sample.rootBytes]> ∅).

Definition issuerCrt (issuer : Certificate) : Crt :=
  {| Leaf := issuer; TrustChain := [] |}.


End SampleService.

(** * Properties *)

(** ** Refresh scheduling *)

Lemma wrap64_small (z : Z) : in_int64 z -> wrap64 z = z.
Proof.
  unfold in_int64, minDuration, maxDuration, wrap64. intros H.
  rewrite Z.mod_small; lia.
Qed.

Lemma Until_in_int64 (now t : Time) : in_int64 (Until now t).
Proof.
  unfold Until, Sub, in_int64.
  destruct (Z.ltb_spec (t - now) minDuration);
    [ unfold minDuration, maxDuration; lia |].
  destruct (Z.ltb_spec maxDuration (t - now));
    [ unfold minDuration, maxDuration in *; lia | lia ].
Qed.

(** Neither the division nor the multiplication of [beforeExpiry] leaves
    int64 once the remaining validity is at least a second. *)
Lemma scale_no_wrap (expiry : Duration) :
  in_int64 expiry -> Second <= expiry ->
  mul64 (div64 expiry Second) (800 * Millisecond) = scaled expiry.
Proof.
  unfold in_int64, minDuration, maxDuration, mul64, div64, scaled.
  change Second with 1000000000. change (800 * Millisecond) with 800000000.
  intros [_ Hhi] Hlo.
  rewrite Z.quot_div_nonneg by lia.
  assert (1 <= expiry / 1000000000 <= 9223372036) as Hq.
  { split.
    - apply Z.div_le_lower_bound; lia.
    - apply Z.lt_succ_r. apply Z.div_lt_upper_bound; lia. }
  rewrite (wrap64_small (expiry / 1000000000))
    by (unfold in_int64, minDuration, maxDuration; lia).
  apply wrap64_small. unfold in_int64, minDuration, maxDuration. lia.
Qed.

(** The three regimes of [beforeExpiry], by the remaining validity. *)
Lemma beforeExpiry_short (now t : Time) :
  Until now t < MIN_REFRESH_TIME -> beforeExpiry now t = MIN_REFRESH_TIME.
Proof.
  intros H. unfold beforeExpiry. cbv zeta.
  destruct (Z.ltb_spec (Until now t) MIN_REFRESH_TIME); [reflexivity | lia].
Qed.

Lemma beforeExpiry_long (now t : Time) :
  MIN_REFRESH_TIME <= Until now t ->
  beforeExpiry now t = Z.min MAX_REFRESH_TIME (scaled (Until now t)).
Proof.
  intros H. unfold beforeExpiry. cbv zeta.
  destruct (Z.ltb_spec (Until now t) MIN_REFRESH_TIME); [lia |].
  rewrite scale_no_wrap by (auto using Until_in_int64).
  destruct (Z.ltb_spec MAX_REFRESH_TIME (scaled (Until now t))); lia.
Qed.

Lemma scaled_second (expiry : Duration) :
  Second <= expiry < 2 * Second -> scaled expiry = 800 * Millisecond.
Proof.
  unfold scaled. change Second with 1000000000.
  change (800 * Millisecond) with 800000000. intros H.
  rewrite Z.quot_div_nonneg by lia.
  replace (expiry / 1000000000) with 1; [reflexivity |].
  apply Z.div_unique with (r := expiry - 1000000000); lia.
Qed.

Lemma scaled_two_seconds (expiry : Duration) :
  2 * Second <= expiry -> MIN_REFRESH_TIME <= scaled expiry.
Proof.
  unfold scaled, MIN_REFRESH_TIME. change Second with 1000000000.
  change (800 * Millisecond) with 800000000. intros H.
  rewrite Z.quot_div_nonneg by lia.
  assert (2 <= expiry / 1000000000) by (apply Z.div_le_lower_bound; lia).
  lia.
Qed.

(** The result never exceeds the maximum. *)
Lemma beforeExpiry_le_max (now t : Time) : beforeExpiry now t <= MAX_REFRESH_TIME.
Proof.
  destruct (Z.lt_ge_cases (Until now t) MIN_REFRESH_TIME) as [H | H].
  - rewrite beforeExpiry_short by assumption. vm_compute. discriminate.
  - rewrite beforeExpiry_long by assumption. lia.
Qed.

(** A certificate that has expired is refreshed after the minimum. *)
Lemma beforeExpiry_expired (now t : Time) :
  t <= now -> beforeExpiry now t = MIN_REFRESH_TIME.
Proof.
  intros H. apply beforeExpiry_short.
  pose proof (Until_in_int64 now t) as Hr.
  unfold Until, Sub in *.
  destruct (Z.ltb_spec (t - now) minDuration); [vm_compute; reflexivity |].
  destruct (Z.ltb_spec maxDuration (t - now)).
  - unfold maxDuration in *. lia.
  - unfold MIN_REFRESH_TIME. change Second with 1000000000. lia.
Qed.

(** Outside the window of one to two seconds of remaining validity the
    code computes the clamped interval of the specification. *)
Lemma beforeExpiry_is_clamp (now t : Time) :
  Until now t < Second \/ 2 * Second <= Until now t ->
  beforeExpiry now t = refreshIn_spec now t.
Proof.
  unfold refreshIn_spec, clamp. intros [H | H].
  - rewrite beforeExpiry_short by (unfold MIN_REFRESH_TIME; lia).
    assert (scaled (Until now t) <= 0) as Hs.
    { unfold scaled. change Second with 1000000000 in *.
      change (800 * Millisecond) with 800000000.
      destruct (Z.le_gt_cases 0 (Until now t)).
      - rewrite Z.quot_small by lia. lia.
      - pose proof (Z.quot_opp_l (- Until now t) 1000000000 ltac:(lia)) as Ho.
        rewrite Z.opp_involutive in Ho. rewrite Ho.
        pose proof (Z.quot_pos (- Until now t) 1000000000 ltac:(lia) ltac:(lia)).
        lia. }
    assert (0 < MIN_REFRESH_TIME) by (vm_compute; reflexivity).
    assert (MIN_REFRESH_TIME < MAX_REFRESH_TIME) by (vm_compute; reflexivity).
    lia.
  - pose proof (scaled_two_seconds _ H).
    rewrite beforeExpiry_long
      by (unfold MIN_REFRESH_TIME; change Second with 1000000000 in *; lia).
    assert (MIN_REFRESH_TIME < MAX_REFRESH_TIME) by (vm_compute; reflexivity).
    lia.
Qed.

(** Inside that window the result is 800ms, below the minimum. *)
Lemma beforeExpiry_window (now t : Time) :
  Second <= Until now t < 2 * Second ->
  beforeExpiry now t = 800 * Millisecond /\ beforeExpiry now t < MIN_REFRESH_TIME.
Proof.
  intros H.
  rewrite beforeExpiry_long by (unfold MIN_REFRESH_TIME; lia).
  rewrite scaled_second by assumption.
  split; vm_compute; reflexivity.
Qed.

(** A certificate that expires in 100 seconds is refreshed after 80, and
    one that expires in a year after the maximum. *)
Example beforeExpiry_samples :
  beforeExpiry 0 (100 * Second) = 80 * Second /\
  beforeExpiry 0 (365 * 24 * Hour) = MAX_REFRESH_TIME /\
  beforeExpiry (5 * Second) (3 * Second) = MIN_REFRESH_TIME.
Proof. repeat split. Qed.

(** C1, at a certificate that expires in a second and a half: the code
    returns 800ms, which is below [MIN_REFRESH_TIME], where the clamped
    interval of the specification is [MIN_REFRESH_TIME]. *)
Theorem beforeExpiry_below_minimum :
  beforeExpiry 0 (1500 * Millisecond) = 800 * Millisecond /\
  beforeExpiry 0 (1500 * Millisecond) < MIN_REFRESH_TIME /\
  refreshIn_spec 0 (1500 * Millisecond) = MIN_REFRESH_TIME.
Proof. repeat split. Qed.

(** ** The end-entity directory *)

Section EndEntityDir.
Context {ext : Externals}.

Lemma checkNotExists_world (p : string) (w : World) :
  snd (checkNotExists p w) = w.
Proof.
  unfold checkNotExists, bind, Stat, ret.
  destruct (os_Stat (fs w) p) as [i | e]; [reflexivity |].
  destruct (IsNotExist e); reflexivity.
Qed.

Lemma checkNotExists_present (p : string) (w : World) :
  present (fs w) p ->
  checkNotExists p w = (Some (errorString ("Already exists: " ++ p)), w).
Proof.
  intros [i Hi]. unfold checkNotExists, bind, Stat, ret. rewrite Hi. reflexivity.
Qed.

Lemma checkNotExists_absent (p : string) (w : World) :
  absent (fs w) p -> checkNotExists p w = (None, w).
Proof.
  intros H. unfold checkNotExists, bind, Stat, ret, os_Stat.
  unfold absent in H. rewrite H. reflexivity.
Qed.

Lemma checkEndEntityDir_world (dir : string) (w : World) :
  snd (checkEndEntityDir dir w) = w.
Proof.
  unfold checkEndEntityDir.
  destruct (String.eqb dir ""); [reflexivity |].
  unfold bind at 1. unfold Stat at 1.
  destruct (os_Stat (fs w) dir) as [s | e]; [| reflexivity].
  destruct (negb (IsDir s)); [reflexivity |].
  destruct (Perm (Mode s) =? octal 7 0 0); [reflexivity |].
  unfold bind.
  pose proof (checkNotExists_world (filepath_Join dir "key") w) as Hk.
  destruct (checkNotExists (filepath_Join dir "key") w) as [[e1|] w1];
    simpl in Hk; subst w1; [reflexivity |].
  pose proof (checkNotExists_world (filepath_Join dir "csr") w) as Hc.
  destruct (checkNotExists (filepath_Join dir "csr") w) as [[e2|] w2];
    simpl in Hc; subst w2; [reflexivity |].
  pose proof (checkNotExists_world (filepath_Join dir "crt.pem") w) as Hp.
  destruct (checkNotExists (filepath_Join dir "crt.pem") w) as [[e3|] w3];
    simpl in Hp; subst w3; reflexivity.
Qed.

Lemma directoryChecks_world (dir : string) (w : World) :
  snd (directoryChecks dir w) = w.
Proof.
  unfold directoryChecks.
  destruct (String.eqb dir ""); [reflexivity |].
  unfold bind, Stat.
  destruct (os_Stat (fs w) dir) as [s | e]; [| reflexivity].
  destruct (negb (IsDir s)); [reflexivity |].
  destruct (Perm (Mode s) =? octal 7 0 0); reflexivity.
Qed.

(** An error of the checks on the directory is the error of
    [checkEndEntityDir]. *)
Lemma checkEndEntityDir_directory_error (dir : string) (w : World) (e : error) :
  fst (directoryChecks dir w) = Some e ->
  fst (checkEndEntityDir dir w) = ("", "", "", Some e).
Proof.
  unfold directoryChecks, checkEndEntityDir, bind, Stat, ret.
  destruct (String.eqb dir ""); [simpl; congruence |].
  destruct (os_Stat (fs w) dir) as [s | e0]; [| simpl; congruence].
  destruct (negb (IsDir s)); [simpl; congruence |].
  destruct (Perm (Mode s) =? octal 7 0 0); [simpl; congruence |].
  simpl. discriminate.
Qed.

(** Once the checks on the directory pass, the three files are looked
    for in order. *)
Lemma checkEndEntityDir_files (dir : string) (w : World) :
  fst (directoryChecks dir w) = None ->
  checkEndEntityDir dir w =
    (err <- checkNotExists (filepath_Join dir "key") ;;
     match err with
     | Some _ => ret ("", "", "", err)
     | None =>
         err <- checkNotExists (filepath_Join dir "csr") ;;
         match err with
         | Some _ => ret ("", "", "", err)
         | None =>
             err <- checkNotExists (filepath_Join dir "crt.pem") ;;
             match err with
             | Some _ => ret ("", "", "", err)
             | None => ret (filepath_Join dir "key", filepath_Join dir "csr",
                            filepath_Join dir "crt.pem", None)
             end
         end
     end) w.
Proof.
  unfold directoryChecks, checkEndEntityDir, bind, Stat, ret.
  destruct (String.eqb dir ""); [simpl; discriminate |].
  destruct (os_Stat (fs w) dir) as [s | e0]; [| simpl; discriminate].
  destruct (negb (IsDir s)); [simpl; discriminate |].
  destruct (Perm (Mode s) =? octal 7 0 0); [simpl; discriminate |].
  reflexivity.
Qed.

(** Whatever else holds, a file that is there makes [checkEndEntityDir]
    fail. *)
Lemma checkEndEntityDir_present_error (dir n : string) (w : World) :
  In n artifacts -> present (fs w) (filepath_Join dir n) ->
  exists err, snd (fst (checkEndEntityDir dir w)) = Some err.
Proof.
  intros Hn Hp.
  destruct (fst (directoryChecks dir w)) as [e |] eqn:Hd.
  - rewrite (checkEndEntityDir_directory_error _ _ _ Hd). eauto.
  - rewrite (checkEndEntityDir_files _ _ Hd). unfold bind.
    pose proof (checkNotExists_world (filepath_Join dir "key") w) as Hk.
    destruct (checkNotExists (filepath_Join dir "key") w) as [[e1|] w1] eqn:E1;
      simpl in Hk; subst w1; [simpl; eauto |].
    pose proof (checkNotExists_world (filepath_Join dir "csr") w) as Hc.
    destruct (checkNotExists (filepath_Join dir "csr") w) as [[e2|] w2] eqn:E2;
      simpl in Hc; subst w2; [simpl; eauto |].
    pose proof (checkNotExists_world (filepath_Join dir "crt.pem") w) as Hq.
    destruct (checkNotExists (filepath_Join dir "crt.pem") w) as [[e3|] w3] eqn:E3;
      simpl in Hq; subst w3; [simpl; eauto |].
    exfalso. simpl in Hn.
    destruct Hn as [<- | [<- | [<- | []]]];
      rewrite (checkNotExists_present _ _ Hp) in *; discriminate.
Qed.

(** The first file that is there is named by the error, once the checks
    on the directory pass. *)
Lemma checkEndEntityDir_already_exists (dir n : string) (w : World) :
  In n artifacts -> present (fs w) (filepath_Join dir n) ->
  fst (directoryChecks dir w) = None ->
  (forall n', In n' (checkedBefore n) -> absent (fs w) (filepath_Join dir n')) ->
  fst (checkEndEntityDir dir w) =
    ("", "", "", Some (errorString ("Already exists: " ++ filepath_Join dir n))).
Proof.
  intros Hn Hp Hd Hb.
  rewrite (checkEndEntityDir_files _ _ Hd). unfold bind.
  simpl in Hn. destruct Hn as [<- | [<- | [<- | []]]]; simpl in Hb.
  - rewrite (checkNotExists_present _ _ Hp). reflexivity.
  - rewrite (checkNotExists_absent (filepath_Join dir "key")) by auto.
    rewrite (checkNotExists_present _ _ Hp). reflexivity.
  - rewrite (checkNotExists_absent (filepath_Join dir "key")) by auto.
    rewrite (checkNotExists_absent (filepath_Join dir "csr")) by auto.
    rewrite (checkNotExists_present _ _ Hp). reflexivity.
Qed.

Lemma loadVerifier_world (path : string) (w : World) :
  snd (loadVerifier path w) = w.
Proof.
  unfold loadVerifier.
  destruct (String.eqb path ""); [reflexivity |].
  unfold bind, ReadFile.
  destruct (ioutil_ReadFile (fs w) path) as [b | e]; [| reflexivity].
  destruct (tls_DecodePEMCertPool b); reflexivity.
Qed.

Lemma fatal_run (format : string) (args : list Arg) (w : World) :
  fatal format args w =
    (Exited 1, {| fs := fs w; clock := clock w; reads := reads w;
                  trace := (trace w ++ [ELog FatalLevel format args]) ++ [EExit 1] |}).
Proof. reflexivity. Qed.

(** [main] with a file in the way: a fatal log entry, the exit, and
    nothing else. *)
Lemma main_present_exits (flags : Flags) (su : Startup) (rounds : list Round)
    (w : World) (n : string) :
  In n artifacts -> present (fs w) (filepath_Join (dir flags) n) ->
  exists format args,
    main flags su rounds w =
      (Exited 1, {| fs := fs w; clock := clock w; reads := reads w;
                    trace := trace w ++ [ELog FatalLevel format args; EExit 1] |}).
Proof.
  intros Hn Hp. unfold main. unfold bind at 1.
  pose proof (loadVerifier_world (trustAnchorsPath flags) w) as Hv.
  destruct (loadVerifier (trustAnchorsPath flags) w) as [[v [e |]] w0];
    simpl in Hv; subst w0; cbn [snd fst].
  - rewrite fatal_run, <- app_assoc. eauto.
  - unfold bind at 1.
    pose proof (checkEndEntityDir_world (dir flags) w) as Hw.
    destruct (checkEndEntityDir_present_error (dir flags) n w Hn Hp) as [err He].
    destruct (checkEndEntityDir (dir flags) w) as [[[[kp cp] pp] oe] w0].
    simpl in Hw, He. subst w0 oe.
    rewrite fatal_run, <- app_assoc. eauto.
Qed.

(** A directory with the permissions 0700 is refused. *)
Lemma checkEndEntityDir_0700 (dir : string) (w : World) (m : Z) :
  String.eqb dir "" = false ->
  fs w !! dir = Some (Directory m) ->
  Perm m = octal 7 0 0 ->
  fst (checkEndEntityDir dir w) =
    ("", "", "",
     Some (errorString ("Must have permissions 0700: " ++ dir ++ "; got -rwx------"))).
Proof.
  intros Hd Hm Hp.
  unfold checkEndEntityDir, bind, Stat, ret, os_Stat. rewrite Hd, Hm.
  cbn [IsDir Mode negb]. rewrite Hp. reflexivity.
Qed.

(** A fresh directory with any other permissions, which the owner may
    search, is accepted. *)
Lemma checkEndEntityDir_not_0700 (dir : string) (w : World) (m : Z) :
  String.eqb dir "" = false ->
  fs w !! dir = Some (Directory m) ->
  owner_searchable m = true ->
  Perm m <> octal 7 0 0 ->
  (forall n, In n artifacts -> absent (fs w) (filepath_Join dir n)) ->
  fst (checkEndEntityDir dir w) =
    (filepath_Join dir "key", filepath_Join dir "csr", filepath_Join dir "crt.pem", None).
Proof.
  intros Hd Hm _ Hp Ha.
  assert (fst (directoryChecks dir w) = None) as Hc.
  { unfold directoryChecks, bind, Stat, ret, os_Stat. rewrite Hd, Hm.
    cbn [IsDir Mode negb].
    destruct (Z.eqb_spec (Perm m) (octal 7 0 0)); [contradiction | reflexivity]. }
  rewrite (checkEndEntityDir_files _ _ Hc). unfold bind.
  rewrite !checkNotExists_absent by (apply Ha; simpl; auto).
  reflexivity.
Qed.

End EndEntityDir.

(** C2, at the sample directory: with the permissions 0700 that the
    message asks for, [checkEndEntityDir] fails with that message; with
    the permissions 0755 it succeeds. *)
Theorem checkEndEntityDir_refuses_0700 :
  fst (checkEndEntityDir (ext := Sample.toy) "/run/ee"
         (Sample.world (Sample.files (octal 7 0 0)) 0)) =
    ("", "", "",
     Some (errorString "Must have permissions 0700: /run/ee; got -rwx------")) /\
  fst (checkEndEntityDir (ext := Sample.toy) "/run/ee"
         (Sample.world (Sample.files (octal 7 5 5)) 0)) =
    ("/run/ee/key", "/run/ee/csr", "/run/ee/crt.pem", None).
Proof. split; vm_compute; reflexivity. Qed.

(** C7 as stated fails: [crt.pem] is in the directory, and the error of
    [checkEndEntityDir] is the error of [os.Stat] on [key], which is a
    link to itself; it is no "Already exists" error. *)
Lemma existing_crt_other_error :
  present (SampleRuns.looped (octal 7 5 5) "crt.pem") "/run/ee/crt.pem" /\
  fst (checkEndEntityDir (ext := Sample.toy) "/run/ee"
         (Sample.world (SampleRuns.looped (octal 7 5 5) "crt.pem") 0)) =
    ("", "", "", Some (PathError "stat" "/run/ee/key" ELOOP)) /\
  ~ (exists p,
       snd (fst (checkEndEntityDir (ext := Sample.toy) "/run/ee"
                   (Sample.world (SampleRuns.looped (octal 7 5 5) "crt.pem") 0))) =
       Some (errorString ("Already exists: " ++ p))).
Proof.
  split; [| split].
  - eexists. vm_compute. reflexivity.
  - vm_compute. reflexivity.
  - intros [p Hp]. vm_compute in Hp. discriminate.
Qed.

(** The same file in a directory with the permissions 0700: the error is
    the one about the permissions. *)
Lemma existing_crt_in_0700 :
  fst (checkEndEntityDir (ext := Sample.toy) "/run/ee"
         (Sample.world (SampleRuns.occupied (octal 7 0 0) "crt.pem") 0)) =
    ("", "", "",
     Some (errorString "Must have permissions 0700: /run/ee; got -rwx------")).
Proof. vm_compute. reflexivity. Qed.

(** C7, amended: when one of [key], [csr], [crt.pem] is in the
    end-entity directory, [checkEndEntityDir] returns an error, which is
    "Already exists" with the path of that file once the checks on the
    directory pass and the files looked for before it are absent; and
    [main] logs a fatal entry and exits with status 1, having changed no
    file and having generated no key, created no CSR, dialled no service
    and sent no request. *)
Theorem existing_artifact_stops_startup {ext : Externals}
    (flags : Flags) (su : Startup) (rounds : list Round) (w : World) (n : string) :
  In n artifacts ->
  present (fs w) (filepath_Join (dir flags) n) ->
  (exists err, snd (fst (checkEndEntityDir (dir flags) w)) = Some err) /\
  (fst (directoryChecks (dir flags) w) = None ->
   (forall n', In n' (checkedBefore n) -> absent (fs w) (filepath_Join (dir flags) n')) ->
   fst (checkEndEntityDir (dir flags) w) =
     ("", "", "", Some (errorString ("Already exists: " ++ filepath_Join (dir flags) n)))) /\
  fst (main flags su rounds w) = Exited 1 /\
  fs (snd (main flags su rounds w)) = fs w /\
  exists evs,
    trace (snd (main flags su rounds w)) = (trace w ++ evs)%list /\
    In (EExit 1) evs /\
    forallb (fun e => negb (isWork e)) evs = true.
Proof.
  intros Hn Hp. split; [| split].
  - eapply checkEndEntityDir_present_error; eauto.
  - intros Hd Hb. apply checkEndEntityDir_already_exists; auto.
  - destruct (main_present_exits flags su rounds w n Hn Hp) as (format & args & Hm).
    rewrite Hm. cbn [fst snd fs trace]. repeat split.
    exists [ELog FatalLevel format args; EExit 1].
    repeat split. simpl. auto.
Qed.

Lemma existing_artifact_stops_startup_witness :
  fst (checkEndEntityDir (ext := Sample.toy) (dir Sample.flags)
         (Sample.world (SampleRuns.occupied (octal 7 5 5) "csr") 0)) =
    ("", "", "", Some (errorString ("Already exists: " ++ "/run/ee/csr"))) /\
  fst (main (ext := Sample.toy) Sample.flags Sample.startup []
         (Sample.world (SampleRuns.occupied (octal 7 5 5) "csr") 0)) = Exited 1.
Proof.
  pose proof (existing_artifact_stops_startup (ext := Sample.toy)
                Sample.flags Sample.startup []
                (Sample.world (SampleRuns.occupied (octal 7 5 5) "csr") 0) "csr") as H.
  destruct H as (_ & H2 & H3 & _).
  - simpl. auto.
  - eexists. vm_compute. reflexivity.
  - split; [| assumption].
    apply H2.
    + vm_compute. reflexivity.
    + intros n' [<- | []]. vm_compute. reflexivity.
Defined.

(** ** Key generation *)

(** C3, for every key that [tls.GenerateKey] returns and every path and
    state of the files: [generateAndStoreKey] returns the key and no
    error, and has written nothing: the files are unchanged and the only
    event is the generation itself.  The write with mode 0400 is made on
    the other branch, when the generation failed. *)
Theorem generateAndStoreKey_success_writes_nothing {ext : Externals}
    (key : PrivateKey) (p : string) (w : World) :
  fst (generateAndStoreKey (Ok key) p w) = (Some key, None) /\
  fs (snd (generateAndStoreKey (Ok key) p w)) = fs w /\
  trace (snd (generateAndStoreKey (Ok key) p w)) = (trace w ++ [EGenerateKey])%list.
Proof. repeat split. Qed.

(** When the generation fails, the encoding of the nil key is written
    with mode 0400 and the error of the generation is replaced by the
    outcome of the write. *)
Lemma generateAndStoreKey_failure_writes {ext : Externals}
    (e : error) (p : string) (w : World) :
  fst (generateAndStoreKey (Err e) p w) =
    (None, fst (ioutil_WriteFile (fs w) p (tls_EncodePrivateKeyP8 None) (octal 4 0 0))) /\
  fs (snd (generateAndStoreKey (Err e) p w)) =
    snd (ioutil_WriteFile (fs w) p (tls_EncodePrivateKeyP8 None) (octal 4 0 0)) /\
  trace (snd (generateAndStoreKey (Err e) p w)) =
    (trace w ++ [EGenerateKey; EWriteFile p (tls_EncodePrivateKeyP8 None) (octal 4 0 0)])%list.
Proof.
  unfold generateAndStoreKey, bind, emit, WriteFile, ret. cbn [pair_of fs trace].
  destruct (ioutil_WriteFile (fs w) p (tls_EncodePrivateKeyP8 None) (octal 4 0 0)).
  cbn [fst snd fs trace]. rewrite <- app_assoc. repeat split.
Qed.

(** In the sample run the key file does not exist after
    [generateAndStoreKey] has returned the key. *)
Example generateAndStoreKey_sample :
  let out := generateAndStoreKey (ext := Sample.toy) (Ok {| D := 42 |}) "/run/ee/key"
               (Sample.world (Sample.files (octal 7 5 5)) 0) in
  fst out = (Some {| D := 42 |}, None) /\ fs (snd out) !! "/run/ee/key" = None.
Proof. split; vm_compute; reflexivity. Qed.

(** ** Validation of the response *)

Section Validation.
Context {ext : Externals}.

(** The two ways in which [validateAndStoreCrt] ends: it accepts and
    writes, or it rejects and leaves files and trace alone. *)
Lemma validateAndStoreCrt_cases (rsp : CertifyResponse) (crtPath : string)
    (verify : VerifyOptions) (w : World) :
  (exists crt,
     Accepted rsp verify (clock w) (reads w) crt /\
     fst (validateAndStoreCrt rsp crtPath verify w) =
       (Some crt,
        fst (ioutil_WriteFile (fs w) crtPath (LeafCertificate rsp) (octal 6 0 0))) /\
     fs (snd (validateAndStoreCrt rsp crtPath verify w)) =
       snd (ioutil_WriteFile (fs w) crtPath (LeafCertificate rsp) (octal 6 0 0)) /\
     trace (snd (validateAndStoreCrt rsp crtPath verify w)) =
       (trace w ++ [EWriteFile crtPath (LeafCertificate rsp) (octal 6 0 0)])%list /\
     clock (snd (validateAndStoreCrt rsp crtPath verify w)) = clock w)
  \/
  ((forall crt, ~ Accepted rsp verify (clock w) (reads w) crt) /\
   (exists e, fst (validateAndStoreCrt rsp crtPath verify w) = (None, Some e)) /\
   fs (snd (validateAndStoreCrt rsp crtPath verify w)) = fs w /\
   trace (snd (validateAndStoreCrt rsp crtPath verify w)) = trace w /\
   clock (snd (validateAndStoreCrt rsp crtPath verify w)) = clock w).
Proof.
  unfold validateAndStoreCrt, Accepted.
  destruct (LeafCertificate rsp) as [| b leafb] eqn:Hleaf.
  { right. cbn. split; [| eauto 6]. intros crt (Hne & _). congruence. }
  cbn [length Nat.eqb].
  destruct (x509_ParseCertificate (b :: leafb)) as [crt | e] eqn:Hparse.
  2: { right. cbn. split; [| eauto 6]. intros crt (_ & Hp & _). congruence. }
  destruct (parseIntermediates (IntermediateCertificates rsp) NewCertPool)
    as [pool | e] eqn:Hpool.
  2: { right. cbn. split; [| eauto 6].
       intros crt' (_ & _ & pool & Hp & _). congruence. }
  unfold bind, Now, ret. cbn [fst snd fs clock reads trace].
  destruct (x509_Verify crt {| Roots := Roots verify; Intermediates := Some pool |}
              (clock w (reads w))) as [e |] eqn:Hverify;
    cbn [fst snd fs clock reads trace].
  { right. split; [| eauto 6].
    intros crt' (_ & Hp & pool' & Hp' & Hv & _).
    assert (crt' = crt) by congruence. assert (pool' = pool) by congruence.
    subst. congruence. }
  unfold Before, After.
  destruct (Z.ltb_spec (clock w (S (reads w))) (NotBefore crt)) as [Hnb | Hnb];
    cbn [fst snd fs clock reads trace].
  { right. split; [| eauto 6].
    intros crt' (_ & Hp & pool' & _ & _ & Hb & _).
    assert (crt' = crt) by congruence. subst. lia. }
  destruct (Z.ltb_spec (NotAfter crt) (clock w (S (S (reads w))))) as [Hna | Hna];
    cbn [fst snd fs clock reads trace].
  { right. split; [| eauto 6].
    intros crt' (_ & Hp & pool' & _ & _ & _ & Ha).
    assert (crt' = crt) by congruence. subst. lia. }
  left. exists crt. unfold WriteFile. cbn [fs clock reads trace].
  destruct (ioutil_WriteFile (fs w) crtPath (b :: leafb) (octal 6 0 0)) as [werr fs'].
  cbn [fst snd fs clock trace].
  repeat split; try reflexivity; try assumption; try discriminate.
  exists pool. auto.
Qed.

(** The pool of intermediates holds the parsed intermediates of the
    response, in their order. *)
Lemma parseIntermediates_pool (bs : list bytes) (pool0 pool : CertPool) :
  parseIntermediates bs pool0 = Ok pool ->
  exists cs,
    pool = (pool0 ++ cs)%list /\
    Forall2 (fun b c => x509_ParseCertificate b = Ok c) bs cs.
Proof.
  revert pool0. induction bs as [| b bs IH]; intros pool0 H; cbn in H.
  - injection H as <-. exists []. rewrite app_nil_r. auto.
  - destruct (x509_ParseCertificate b) as [c | e] eqn:Hb; [| discriminate].
    destruct (IH _ H) as (cs & -> & Hcs). exists (c :: cs).
    unfold AddCert. rewrite <- app_assoc. auto.
Qed.

Lemma parseIntermediates_complete (bs : list bytes) (pool0 cs : CertPool) :
  Forall2 (fun b c => x509_ParseCertificate b = Ok c) bs cs ->
  parseIntermediates bs pool0 = Ok (pool0 ++ cs)%list.
Proof.
  intros H. revert pool0. induction H as [| b c bs cs Hb _ IH]; intros pool0; cbn.
  - rewrite app_nil_r. reflexivity.
  - rewrite Hb, IH. unfold AddCert. rewrite <- app_assoc. reflexivity.
Qed.

(** The pool that the code builds is the list of the parsed
    intermediates: what the code accepts is what is verified with the
    intermediates of the response. *)
Lemma Accepted_Verified (rsp : CertifyResponse) (verify : VerifyOptions)
    (clk : nat -> Time) (n : nat) (crt : Certificate) :
  Accepted rsp verify clk n crt <-> Verified rsp verify clk n crt.
Proof.
  unfold Accepted, Verified. split.
  - intros (Hne & Hp & pool & Hpool & Hrest).
    destruct (parseIntermediates_pool _ _ _ Hpool) as (cs & -> & Hcs).
    split; [assumption |]. split; [assumption |]. exists cs. auto.
  - intros (Hne & Hp & cs & Hcs & Hrest).
    split; [assumption |]. split; [assumption |]. exists cs.
    split; [exact (parseIntermediates_complete _ NewCertPool _ Hcs) | assumption].
Qed.

(** The message of each check of the window. *)
Lemma validateAndStoreCrt_not_yet_valid (rsp : CertifyResponse) (crtPath : string)
    (verify : VerifyOptions) (w : World) (crt : Certificate) (pool : CertPool) :
  LeafCertificate rsp <> [] ->
  x509_ParseCertificate (LeafCertificate rsp) = Ok crt ->
  parseIntermediates (IntermediateCertificates rsp) NewCertPool = Ok pool ->
  x509_Verify crt {| Roots := Roots verify; Intermediates := Some pool |}
    (clock w (reads w)) = None ->
  clock w (S (reads w)) < NotBefore crt ->
  fst (validateAndStoreCrt rsp crtPath verify w) =
    (None, Some (errorString "Received a certificate that is not yet valid")).
Proof.
  intros Hne Hparse Hpool Hverify Hnb. unfold validateAndStoreCrt.
  destruct (LeafCertificate rsp) as [| b leafb]; [congruence |].
  cbn [length Nat.eqb]. rewrite Hparse, Hpool.
  unfold bind, Now, ret. cbn [fst snd fs clock reads trace]. rewrite Hverify.
  cbn [fst snd fs clock reads trace]. unfold Before.
  destruct (Z.ltb_spec (clock w (S (reads w))) (NotBefore crt)); [| lia].
  reflexivity.
Qed.

Lemma validateAndStoreCrt_expired (rsp : CertifyResponse) (crtPath : string)
    (verify : VerifyOptions) (w : World) (crt : Certificate) (pool : CertPool) :
  LeafCertificate rsp <> [] ->
  x509_ParseCertificate (LeafCertificate rsp) = Ok crt ->
  parseIntermediates (IntermediateCertificates rsp) NewCertPool = Ok pool ->
  x509_Verify crt {| Roots := Roots verify; Intermediates := Some pool |}
    (clock w (reads w)) = None ->
  NotBefore crt <= clock w (S (reads w)) ->
  NotAfter crt < clock w (S (S (reads w))) ->
  fst (validateAndStoreCrt rsp crtPath verify w) =
    (None, Some (errorString "Received a certificate that has expired")).
Proof.
  intros Hne Hparse Hpool Hverify Hnb Hna. unfold validateAndStoreCrt.
  destruct (LeafCertificate rsp) as [| b leafb]; [congruence |].
  cbn [length Nat.eqb]. rewrite Hparse, Hpool.
  unfold bind, Now, ret. cbn [fst snd fs clock reads trace]. rewrite Hverify.
  cbn [fst snd fs clock reads trace]. unfold Before, After.
  destruct (Z.ltb_spec (clock w (S (reads w))) (NotBefore crt)); [lia |].
  cbn [fst snd fs clock reads trace].
  destruct (Z.ltb_spec (NotAfter crt) (clock w (S (S (reads w))))); [| lia].
  reflexivity.
Qed.

End Validation.

(** C8: [validateAndStoreCrt] verifies the leaf against the roots of
    [verify] with the parsed intermediates of the response, all of them
    and in their order, as the pool of intermediates ([Verified]).  When
    the clock reads before [NotBefore] at the first check of the window
    or after [NotAfter] at the second, it returns no certificate and an
    error and writes nothing.  Whenever it writes, the leaf has verified
    in that way and the clock was inside the window, and the one write is
    of the bytes of the leaf to the certificate path with mode 0600.  And
    when the leaf verifies in that way inside the window it makes that
    write and returns the certificate with the outcome of the write. *)
Theorem validateAndStoreCrt_writes_only_valid {ext : Externals}
    (rsp : CertifyResponse) (crtPath : string) (verify : VerifyOptions) (w : World) :
  (forall crt,
     x509_ParseCertificate (LeafCertificate rsp) = Ok crt ->
     clock w (S (reads w)) < NotBefore crt \/ NotAfter crt < clock w (S (S (reads w))) ->
     (exists e, fst (validateAndStoreCrt rsp crtPath verify w) = (None, Some e)) /\
     fs (snd (validateAndStoreCrt rsp crtPath verify w)) = fs w /\
     trace (snd (validateAndStoreCrt rsp crtPath verify w)) = trace w) /\
  (fs (snd (validateAndStoreCrt rsp crtPath verify w)) <> fs w \/
   trace (snd (validateAndStoreCrt rsp crtPath verify w)) <> trace w ->
   exists crt,
     Verified rsp verify (clock w) (reads w) crt /\
     trace (snd (validateAndStoreCrt rsp crtPath verify w)) =
       (trace w ++ [EWriteFile crtPath (LeafCertificate rsp) (octal 6 0 0)])%list) /\
  (forall crt,
     Verified rsp verify (clock w) (reads w) crt ->
     fst (validateAndStoreCrt rsp crtPath verify w) =
       (Some crt,
        fst (ioutil_WriteFile (fs w) crtPath (LeafCertificate rsp) (octal 6 0 0))) /\
     fs (snd (validateAndStoreCrt rsp crtPath verify w)) =
       snd (ioutil_WriteFile (fs w) crtPath (LeafCertificate rsp) (octal 6 0 0)) /\
     trace (snd (validateAndStoreCrt rsp crtPath verify w)) =
       (trace w ++ [EWriteFile crtPath (LeafCertificate rsp) (octal 6 0 0)])%list) /\
  ((forall crt, ~ Verified rsp verify (clock w) (reads w) crt) ->
   (exists e, fst (validateAndStoreCrt rsp crtPath verify w) = (None, Some e)) /\
   fs (snd (validateAndStoreCrt rsp crtPath verify w)) = fs w /\
   trace (snd (validateAndStoreCrt rsp crtPath verify w)) = trace w).
Proof.
  destruct (validateAndStoreCrt_cases rsp crtPath verify w)
    as [(crt0 & Hacc & Hres & Hfs & Htr & _) | (Hrej & Hres & Hfs & Htr & _)].
  - split; [| split; [| split]].
    + intros crt Hparse Hwin.
      destruct Hacc as (_ & Hparse0 & pool & _ & _ & Hnb & Hna).
      assert (crt = crt0) by congruence. subst. lia.
    + intros _. exists crt0. split; [apply Accepted_Verified; assumption | assumption].
    + intros crt (_ & Hparse & _). destruct Hacc as (Hne & Hparse0 & Hrest).
      assert (crt = crt0) by congruence. subst. auto.
    + intros Hnone. destruct (Hnone crt0). apply Accepted_Verified. assumption.
  - split; [| split; [| split]].
    + intros crt _ _. auto.
    + intros [H | H]; contradiction.
    + intros crt Hver. destruct (Hrej crt). apply Accepted_Verified. assumption.
    + intros _. auto.
Qed.

(** On the sample: a leaf that chains to the root only through the
    intermediate of the response is accepted at second 100 and written
    with mode 0600; the same leaf without the intermediate is rejected
    (see the rejections below). *)
Lemma validateAndStoreCrt_writes_only_valid_witness :
  fst (validateAndStoreCrt (ext := Sample.toy)
         (Sample.response Sample.otherBytes [SampleRuns.interBytes])
         "/run/ee/crt.pem" Sample.anchors
         (Sample.world (Sample.files (octal 7 5 5)) 100)) =
    (Some SampleRuns.throughInter, None) /\
  fs (snd (validateAndStoreCrt (ext := Sample.toy)
             (Sample.response Sample.otherBytes [SampleRuns.interBytes])
             "/run/ee/crt.pem" Sample.anchors
             (Sample.world (Sample.files (octal 7 5 5)) 100))) !! "/run/ee/crt.pem" =
    Some (Regular (octal 6 0 0) Sample.otherBytes).
Proof.
  destruct (validateAndStoreCrt_writes_only_valid (ext := Sample.toy)
              (Sample.response Sample.otherBytes [SampleRuns.interBytes])
              "/run/ee/crt.pem" Sample.anchors
              (Sample.world (Sample.files (octal 7 5 5)) 100)) as (_ & _ & H & _).
  destruct (H SampleRuns.throughInter) as (Hres & Hfs & _).
  - split; [discriminate |]. split; [reflexivity |].
    exists [SampleRuns.inter]. split; [repeat constructor |].
    repeat split; vm_compute; discriminate.
  - split.
    + rewrite Hres. vm_compute. reflexivity.
    + rewrite Hfs. vm_compute. reflexivity.
Defined.

(** On the sample: before second 2 and after second 200 the same
    response is rejected with the message of the window, and a leaf of
    another issuer is rejected by the verification of the chain. *)
Example validateAndStoreCrt_sample_rejections :
  fst (validateAndStoreCrt (ext := Sample.toy) (Sample.response Sample.leafBytes [])
         "/run/ee/crt.pem" Sample.anchors
         (Sample.world (Sample.files (octal 7 5 5)) 1)) =
    (None, Some (errorString "Received a certificate that is not yet valid")) /\
  fst (validateAndStoreCrt (ext := Sample.toy) (Sample.response Sample.leafBytes [])
         "/run/ee/crt.pem" Sample.anchors
         (Sample.world (Sample.files (octal 7 5 5)) 201)) =
    (None, Some (errorString "Received a certificate that has expired")) /\
  fst (validateAndStoreCrt (ext := Sample.toy) (Sample.response Sample.otherBytes [])
         "/run/ee/crt.pem" Sample.anchors
         (Sample.world (Sample.files (octal 7 5 5)) 100)) =
    (None, Some (LibError "x509" "certificate signed by unknown authority")).
Proof. repeat split. Qed.

(** C10: a response whose leaf is empty is rejected with an error, and
    leaves the world (files, clock, trace) as it was, whatever its
    intermediates are. *)
Theorem validateAndStoreCrt_empty_leaf {ext : Externals}
    (rsp : CertifyResponse) (crtPath : string) (verify : VerifyOptions) (w : World) :
  LeafCertificate rsp = [] ->
  validateAndStoreCrt rsp crtPath verify w =
    ((None, Some (errorString "Certify response does not include a certificate")), w).
Proof.
  intros H. unfold validateAndStoreCrt. rewrite H. reflexivity.
Qed.

Lemma validateAndStoreCrt_empty_leaf_witness :
  validateAndStoreCrt (ext := Sample.toy)
    (Sample.response [] [Sample.rootBytes; Sample.leafBytes])
    "/run/ee/crt.pem" Sample.anchors (Sample.world (Sample.files (octal 7 5 5)) 100) =
    ((None, Some (errorString "Certify response does not include a certificate")),
     Sample.world (Sample.files (octal 7 5 5)) 100).
Proof.
  apply (validateAndStoreCrt_empty_leaf (ext := Sample.toy)). reflexivity.
Defined.

(** ** The renewal loop *)

Section Loop.
Context {ext : Externals}.

Lemma loopBody_phases (flags : Flags) (crtPath : string) (verify : VerifyOptions)
    (r : Round) (st : LoopState) :
  loopBody flags crtPath verify r st =
    (outside (changes r) ;;;
     req <- reloadToken flags st ;;
     emit (ECertify req) ;;;
     crt' <- obtainCertificate crtPath verify r st req ;;
     refreshIn <- scheduleRefresh flags crt' ;;
     emit (ENewTimer refreshIn) ;;;
     awaitWake r {| certifyReq := req; crt := crt' |}).
Proof. reflexivity. Qed.

Lemma certifies_app (a b : list Event) :
  certifies (a ++ b) = (certifies a ++ certifies b)%list.
Proof.
  induction a as [| e a IH]; [reflexivity |].
  destruct e; simpl; rewrite IH; reflexivity.
Qed.

Lemma writes_app (a b : list Event) :
  writes (a ++ b) = (writes a ++ writes b)%list.
Proof.
  induction a as [| e a IH]; [reflexivity |].
  destruct e; simpl; rewrite IH; reflexivity.
Qed.

Lemma reloadToken_run (flags : Flags) (st : LoopState) (r : Round) (w : World) :
  reloadToken flags st
    {| fs := changes r (fs w); clock := clock w; reads := reads w; trace := trace w |} =
  (nextRequest flags r st w,
   {| fs := changes r (fs w); clock := clock w; reads := reads w;
      trace := trace w ++ reloadLog flags r w |}).
Proof.
  unfold reloadToken, nextRequest, reloadLog, reloaded, bind, ReadFile.
  cbn [fs].
  destruct (ioutil_ReadFile (changes r (fs w)) (tokenPath flags)); cbn.
  - rewrite app_nil_r. reflexivity.
  - reflexivity.
Qed.

Lemma bind_run {A B : Type} (m : M A) (k : A -> M B) (w : World) :
  bind m k w = k (fst (m w)) (snd (m w)).
Proof. unfold bind. destruct (m w). reflexivity. Qed.

(** What the validation logs, by the error it returns. *)
Lemma obtainCertificate_cases (crtPath : string) (verify : VerifyOptions)
    (r : Round) (st : LoopState) (req : CertifyRequest) (w : World) :
  (exists err,
     certify r req = Err err /\
     obtainCertificate crtPath verify r st req w =
       (crt st,
        {| fs := fs w; clock := clock w; reads := reads w;
           trace := trace w ++ [ELog ErrorLevel "Failed to obtain certificate: %s" [AErr err]] |}))
  \/
  (exists rsp c,
     certify r req = Ok rsp /\
     Accepted rsp verify (clock w) (reads w) c /\
     fst (obtainCertificate crtPath verify r st req w) = Some c /\
     fs (snd (obtainCertificate crtPath verify r st req w)) =
       snd (ioutil_WriteFile (fs w) crtPath (LeafCertificate rsp) (octal 6 0 0)) /\
     clock (snd (obtainCertificate crtPath verify r st req w)) = clock w /\
     trace (snd (obtainCertificate crtPath verify r st req w)) =
       (trace w ++ EWriteFile crtPath (LeafCertificate rsp) (octal 6 0 0) ::
          match fst (ioutil_WriteFile (fs w) crtPath (LeafCertificate rsp) (octal 6 0 0)) with
          | Some err =>
              [ELog ErrorLevel "Failed to validate and store certificate: %s" [AErr err]]
          | None => []
          end)%list)
  \/
  (exists rsp e,
     certify r req = Ok rsp /\
     (forall c, ~ Accepted rsp verify (clock w) (reads w) c) /\
     fst (validateAndStoreCrt rsp crtPath verify w) = (None, Some e) /\
     fst (obtainCertificate crtPath verify r st req w) = None /\
     fs (snd (obtainCertificate crtPath verify r st req w)) = fs w /\
     clock (snd (obtainCertificate crtPath verify r st req w)) = clock w /\
     trace (snd (obtainCertificate crtPath verify r st req w)) =
       (trace w ++
          [ELog ErrorLevel "Failed to validate and store certificate: %s" [AErr e]])%list).
Proof.
  unfold obtainCertificate.
  destruct (certify r req) as [rsp | err].
  2: { left. exists err. split; reflexivity. }
  right. rewrite !bind_run.
  destruct (validateAndStoreCrt_cases rsp crtPath verify w)
    as [(c & Hacc & Hres & Hfs & Htr & Hclk) | (Hrej & (e & Hres) & Hfs & Htr & Hclk)].
  - left. exists rsp, c.
    destruct (validateAndStoreCrt rsp crtPath verify w) as [[oc oe] w'].
    cbn [fst snd] in *. injection Hres as -> ->.
    split; [reflexivity |]. split; [assumption |].
    destruct (ioutil_WriteFile (fs w) crtPath (LeafCertificate rsp) (octal 6 0 0))
      as [[werr |] fs']; cbn [fst snd] in *; cbn; rewrite ?Htr, <- ?app_assoc; auto.
  - right. exists rsp, e.
    destruct (validateAndStoreCrt rsp crtPath verify w) as [[oc oe] w'].
    cbn [fst snd] in *. injection Hres as -> ->.
    split; [reflexivity |]. split; [assumption |]. split; [reflexivity |].
    cbn. rewrite Htr. auto.
Qed.

Lemma scheduleRefresh_none (flags : Flags) (w : World) :
  scheduleRefresh flags None w =
    (MIN_REFRESH_TIME,
     {| fs := fs w; clock := clock w; reads := reads w;
        trace := trace w ++ [ELog InfoLevel "NO CERTIFICATE; refresh=%s"
                               [ADur MIN_REFRESH_TIME]] |}).
Proof. reflexivity. Qed.

Lemma scheduleRefresh_some (flags : Flags) (c : Certificate) (w : World) :
  scheduleRefresh flags (Some c) w =
    (beforeExpiry (clock w (reads w)) (NotAfter c),
     {| fs := fs w; clock := clock w; reads := S (reads w);
        trace := trace w ++ [ELog InfoLevel "id=%s; fp=%s; expiry=%s; refresh=%s"
                               [AStr (name flags); AStr (fp c); ATime (NotAfter c);
                                ADur (beforeExpiry (clock w (reads w)) (NotAfter c))]] |}).
Proof. reflexivity. Qed.

(** Scheduling logs one line and touches neither the files nor the
    requests. *)
Lemma scheduleRefresh_run (flags : Flags) (oc : option Certificate) (w : World) :
  exists format args,
    trace (snd (scheduleRefresh flags oc w)) =
      (trace w ++ [ELog InfoLevel format args])%list /\
    fs (snd (scheduleRefresh flags oc w)) = fs w /\
    clock (snd (scheduleRefresh flags oc w)) = clock w.
Proof.
  destruct oc as [c |].
  - rewrite scheduleRefresh_some. cbn. eauto.
  - rewrite scheduleRefresh_none. cbn. eauto.
Qed.

Lemma awaitWake_run (r : Round) (st' : LoopState) (w : World) :
  snd (fst (awaitWake r st' w)) = st' /\
  snd (awaitWake r st' w) =
    {| fs := fs w; clock := clock w; reads := reads w;
       trace := trace w ++ wakeLog r |}.
Proof.
  unfold awaitWake, wakeLog. destruct (wake r); cbn.
  - rewrite app_nil_r. destruct w; auto.
  - auto.
Qed.

(** One round of the loop: what it appends to the trace, and the request
    it keeps. *)
Lemma loopBody_summary (flags : Flags) (crtPath : string) (verify : VerifyOptions)
    (r : Round) (st : LoopState) (w : World) :
  exists mid,
    trace (snd (loopBody flags crtPath verify r st w)) =
      (trace w ++ reloadLog flags r w ++
         ECertify (nextRequest flags r st w) :: mid ++ wakeLog r)%list /\
    certifies mid = [] /\
    certifyReq (snd (fst (loopBody flags crtPath verify r st w))) =
      nextRequest flags r st w /\
    clock (snd (loopBody flags crtPath verify r st w)) = clock w.
Proof.
  remember (loopBody flags crtPath verify r st w) as out eqn:Hout.
  rewrite loopBody_phases in Hout. unfold bind, outside in Hout. cbv beta iota in Hout.
  rewrite reloadToken_run in Hout. unfold emit at 1 in Hout.
  cbv beta iota in Hout. cbn [fs clock reads trace] in Hout.
  set (req := nextRequest flags r st w) in *.
  set (w2 := {| fs := changes r (fs w); clock := clock w; reads := reads w;
                trace := (trace w ++ reloadLog flags r w) ++ [ECertify req] |}) in *.
  assert (exists ev,
            trace (snd (obtainCertificate crtPath verify r st req w2)) =
              (trace w2 ++ ev)%list /\
            certifies ev = [] /\
            clock (snd (obtainCertificate crtPath verify r st req w2)) = clock w)
    as (ev & Hev & Hcev & Hclk).
  { destruct (obtainCertificate_cases crtPath verify r st req w2)
      as [(err & _ & ->) | [(rsp & c & _ & _ & _ & _ & Hc & Ht)
                           | (rsp & e & _ & _ & _ & _ & _ & Hc & Ht)]].
    - cbn. eauto.
    - rewrite Ht, Hc. eexists. split; [reflexivity |]. split; [| reflexivity].
      destruct (fst (ioutil_WriteFile (fs w2) crtPath (LeafCertificate rsp) (octal 6 0 0)));
        reflexivity.
    - rewrite Ht, Hc. eauto. }
  destruct (obtainCertificate crtPath verify r st req w2) as [oc w3].
  cbn [fst snd] in Hev, Hclk.
  destruct (scheduleRefresh_run flags oc w3) as (format & args & Hst & _ & Hsc).
  destruct (scheduleRefresh flags oc w3) as [refreshIn w4].
  cbn [fst snd] in Hst, Hsc.
  unfold emit in Hout. cbv beta iota in Hout.
  match type of Hout with
  | context [awaitWake r ?s ?x] =>
      destruct (awaitWake_run r s x) as (Hs & Hw);
      destruct (awaitWake r s x) as [[ctl st'] w5]
  end.
  cbn [fst snd] in Hs, Hw. subst st' w5 out.
  cbn [fst snd fs clock reads trace certifyReq]. rewrite Hst, Hsc, Hev, Hclk.
  subst w2. cbn [trace].
  exists (ev ++ [ELog InfoLevel format args; ENewTimer refreshIn])%list.
  split; [| split; [| split; reflexivity]].
  - rewrite <- !app_assoc. reflexivity.
  - rewrite certifies_app, Hcev. reflexivity.
Qed.

Lemma certifies_reloadLog (flags : Flags) (r : Round) (w : World) :
  certifies (reloadLog flags r w) = [].
Proof. unfold reloadLog. destruct (reloaded flags r w); reflexivity. Qed.

Lemma certifies_wakeLog (r : Round) : certifies (wakeLog r) = [].
Proof. unfold wakeLog. destruct (wake r); reflexivity. Qed.

(** Both ways of leaving the body lead to the next round. *)
Lemma loop_step (flags : Flags) (crtPath : string) (verify : VerifyOptions)
    (r : Round) (rounds : list Round) (st : LoopState) (w : World) :
  loop flags crtPath verify (r :: rounds) st w =
    loop flags crtPath verify rounds
      (snd (fst (loopBody flags crtPath verify r st w)))
      (snd (loopBody flags crtPath verify r st w)).
Proof.
  cbn [loop]. unfold bind.
  destruct (loopBody flags crtPath verify r st w) as [[[|] st'] w']; reflexivity.
Qed.

(** A run of the loop only appends to the trace, and sends one request
    per round. *)
Lemma loop_trace (flags : Flags) (crtPath : string) (verify : VerifyOptions)
    (rounds : list Round) (st : LoopState) (w : World) :
  exists evs,
    trace (snd (loop flags crtPath verify rounds st w)) = (trace w ++ evs)%list /\
    length (certifies evs) = length rounds.
Proof.
  revert st w. induction rounds as [| r rounds IH]; intros st w.
  - exists []. cbn. rewrite app_nil_r. auto.
  - rewrite loop_step.
    destruct (loopBody_summary flags crtPath verify r st w) as (mid & Htr & Hmid & _).
    destruct (IH (snd (fst (loopBody flags crtPath verify r st w)))
                 (snd (loopBody flags crtPath verify r st w))) as (evs & Hevs & Hlen).
    rewrite Hevs, Htr.
    exists (reloadLog flags r w ++ ECertify (nextRequest flags r st w) :: mid
              ++ wakeLog r ++ evs)%list.
    split.
    + rewrite <- !app_assoc. cbn. rewrite <- !app_assoc. reflexivity.
    + rewrite certifies_app, certifies_reloadLog. cbn.
      rewrite !certifies_app, Hmid, certifies_wakeLog. cbn. rewrite Hlen. reflexivity.
Qed.

End Loop.

(** C4, for every run of the loop of at least two rounds in which a
    signal ends the wait of the first round: after the line "Shutting
    down..." the loop starts its next round and sends a request. *)
Theorem loop_continues_after_stop {ext : Externals}
    (flags : Flags) (crtPath : string) (verify : VerifyOptions)
    (r r' : Round) (rounds : list Round) (st : LoopState) (w : World) :
  wake r = StopSignal ->
  exists pre mid req post,
    trace (snd (loop flags crtPath verify (r :: r' :: rounds) st w)) =
      ((trace w ++ pre) ++ ELog InfoLevel "Shutting down..." [] ::
         mid ++ ECertify req :: post)%list.
Proof.
  intros Hstop. rewrite !loop_step.
  destruct (loopBody_summary flags crtPath verify r st w) as (mid1 & Htr1 & _).
  set (st1 := snd (fst (loopBody flags crtPath verify r st w))) in *.
  set (w1 := snd (loopBody flags crtPath verify r st w)) in *.
  destruct (loopBody_summary flags crtPath verify r' st1 w1) as (mid2 & Htr2 & _).
  set (st2 := snd (fst (loopBody flags crtPath verify r' st1 w1))) in *.
  set (w2 := snd (loopBody flags crtPath verify r' st1 w1)) in *.
  destruct (loop_trace flags crtPath verify rounds st2 w2) as (evs & Hevs & _).
  rewrite Hevs, Htr2, Htr1. unfold wakeLog at 1. rewrite Hstop.
  exists (reloadLog flags r w ++ ECertify (nextRequest flags r st w) :: mid1)%list,
         (reloadLog flags r' w1),
         (nextRequest flags r' st1 w1),
         (mid2 ++ wakeLog r' ++ evs)%list.
  rewrite <- !app_assoc. cbn. rewrite <- !app_assoc. reflexivity.
Qed.

Lemma loop_continues_after_stop_witness :
  certifies
    (trace (snd (loop (ext := Sample.toy) Sample.flags "/run/ee/crt.pem" Sample.anchors
                   [Sample.round (Ok (Sample.response Sample.leafBytes [])) StopSignal;
                    Sample.round (Ok (Sample.response Sample.leafBytes [])) TimerFired]
                   {| certifyReq := Sample.request; crt := None |}
                   SampleRuns.running))) =
    [Sample.request; Sample.request] /\
  exists pre mid req post,
    trace (snd (loop (ext := Sample.toy) Sample.flags "/run/ee/crt.pem" Sample.anchors
                  [Sample.round (Ok (Sample.response Sample.leafBytes [])) StopSignal;
                   Sample.round (Ok (Sample.response Sample.leafBytes [])) TimerFired]
                  {| certifyReq := Sample.request; crt := None |}
                  SampleRuns.running)) =
      ((trace SampleRuns.running ++ pre) ++ ELog InfoLevel "Shutting down..." [] ::
         mid ++ ECertify req :: post)%list.
Proof.
  split; [vm_compute; reflexivity |].
  apply (loop_continues_after_stop (ext := Sample.toy)). reflexivity.
Defined.

(** X21: the stop signal changes nothing in the number of requests: a run
    of the loop sends one per round. *)
Lemma loop_certifies_every_round {ext : Externals}
    (flags : Flags) (crtPath : string) (verify : VerifyOptions)
    (rounds : list Round) (st : LoopState) (w : World) :
  length (certifies (trace (snd (loop flags crtPath verify rounds st w)))) =
    (length (certifies (trace w)) + length rounds)%nat.
Proof.
  destruct (loop_trace flags crtPath verify rounds st w) as (evs & Hevs & Hlen).
  rewrite Hevs, certifies_app, length_app, Hlen. reflexivity.
Qed.

(** C5, at an agent that holds the leaf when the service answers with an
    empty leaf: after the round the agent holds no certificate, it logs
    "NO CERTIFICATE", and the timer is set to [MIN_REFRESH_TIME] and not
    to the 80 seconds of the leaf it held, where the round of a failed
    request keeps the certificate. *)
Lemma rejected_response_forgets_certificate :
  crt SampleRuns.holding = Some Sample.leaf /\
  crt (snd (fst (loopBody (ext := Sample.toy) Sample.flags "/run/ee/crt.pem"
                   Sample.anchors SampleRuns.emptyAnswer SampleRuns.holding
                   SampleRuns.running))) = None /\
  crt (snd (fst (loopBody (ext := Sample.toy) Sample.flags "/run/ee/crt.pem"
                   Sample.anchors SampleRuns.emptyAnswer SampleRuns.holding
                   SampleRuns.running))) <> crt SampleRuns.holding /\
  trace (snd (loopBody (ext := Sample.toy) Sample.flags "/run/ee/crt.pem"
                Sample.anchors SampleRuns.emptyAnswer SampleRuns.holding
                SampleRuns.running)) =
    [ECertify Sample.request;
     ELog ErrorLevel "Failed to validate and store certificate: %s"
       [AErr (errorString "Certify response does not include a certificate")];
     ELog InfoLevel "NO CERTIFICATE; refresh=%s" [ADur MIN_REFRESH_TIME];
     ENewTimer MIN_REFRESH_TIME] /\
  beforeExpiry (100 * Second) (NotAfter Sample.leaf) = 80 * Second.
Proof.
  repeat split; try (vm_compute; reflexivity).
  vm_compute. discriminate.
Qed.

(** The same for every rejected answer: when the answer to the request
    of a round is rejected by a check of [validateAndStoreCrt] (the leaf
    is empty or does not parse, an intermediate does not parse, the chain
    does not verify, the clock is outside the validity window), the round
    logs the error and makes no write (the files are as the outside left
    them before the round), but the assignment of both results of
    [validateAndStoreCrt] replaces the certificate held by nil: the
    round logs "NO CERTIFICATE", sets the timer to [MIN_REFRESH_TIME],
    and the loop goes on to its next round. *)
Theorem rejected_response_retried_at_minimum {ext : Externals}
    (flags : Flags) (crtPath : string) (verify : VerifyOptions)
    (r : Round) (rounds : list Round) (st : LoopState) (w : World)
    (rsp : CertifyResponse) :
  certify r (nextRequest flags r st w) = Ok rsp ->
  (forall c, ~ Accepted rsp verify (clock w) (reads w) c) ->
  (exists e,
     fst (validateAndStoreCrt rsp crtPath verify
            {| fs := changes r (fs w); clock := clock w; reads := reads w;
               trace := (trace w ++ reloadLog flags r w) ++
                        [ECertify (nextRequest flags r st w)] |}) = (None, Some e) /\
     trace (snd (loopBody flags crtPath verify r st w)) =
       (trace w ++ reloadLog flags r w ++
          [ECertify (nextRequest flags r st w);
           ELog ErrorLevel "Failed to validate and store certificate: %s" [AErr e];
           ELog InfoLevel "NO CERTIFICATE; refresh=%s" [ADur MIN_REFRESH_TIME];
           ENewTimer MIN_REFRESH_TIME] ++ wakeLog r)%list) /\
  writes (trace (snd (loopBody flags crtPath verify r st w))) = writes (trace w) /\
  fs (snd (loopBody flags crtPath verify r st w)) = changes r (fs w) /\
  crt (snd (fst (loopBody flags crtPath verify r st w))) = None /\
  loop flags crtPath verify (r :: rounds) st w =
    loop flags crtPath verify rounds
      (snd (fst (loopBody flags crtPath verify r st w)))
      (snd (loopBody flags crtPath verify r st w)).
Proof.
  intros Hrsp Hrej.
  assert (exists e,
            fst (validateAndStoreCrt rsp crtPath verify
                   {| fs := changes r (fs w); clock := clock w; reads := reads w;
                      trace := (trace w ++ reloadLog flags r w) ++
                               [ECertify (nextRequest flags r st w)] |}) = (None, Some e) /\
            trace (snd (loopBody flags crtPath verify r st w)) =
              (trace w ++ reloadLog flags r w ++
                 [ECertify (nextRequest flags r st w);
                  ELog ErrorLevel "Failed to validate and store certificate: %s" [AErr e];
                  ELog InfoLevel "NO CERTIFICATE; refresh=%s" [ADur MIN_REFRESH_TIME];
                  ENewTimer MIN_REFRESH_TIME] ++ wakeLog r)%list /\
            fs (snd (loopBody flags crtPath verify r st w)) = changes r (fs w) /\
            crt (snd (fst (loopBody flags crtPath verify r st w))) = None)
    as (e & Hval & Htr & Hfs & Hcrt).
  { remember (loopBody flags crtPath verify r st w) as out eqn:Hout.
    rewrite loopBody_phases in Hout. unfold bind, outside in Hout. cbv beta iota in Hout.
    rewrite reloadToken_run in Hout. unfold emit at 1 in Hout.
    cbv beta iota in Hout. cbn [fs clock reads trace] in Hout.
    set (req := nextRequest flags r st w) in *.
    set (w2 := {| fs := changes r (fs w); clock := clock w; reads := reads w;
                  trace := (trace w ++ reloadLog flags r w) ++ [ECertify req] |}) in *.
    destruct (obtainCertificate_cases crtPath verify r st req w2)
      as [(err & Hc & _) | [(rsp' & c & Hc & Hacc & _)
                           | (rsp' & e & Hc & _ & Hval & Hoc & Hfs & _ & Ht)]].
    - congruence.
    - assert (rsp' = rsp) by congruence. subst rsp'. destruct (Hrej c Hacc).
    - assert (rsp' = rsp) by congruence. subst rsp'. exists e.
      destruct (obtainCertificate crtPath verify r st req w2) as [oc w3].
      cbn [fst snd] in Hoc, Hfs, Ht. subst oc.
      rewrite scheduleRefresh_none in Hout. unfold emit in Hout. cbv beta iota in Hout.
      match type of Hout with
      | context [awaitWake r ?s ?x] =>
          destruct (awaitWake_run r s x) as (Hs & Hw);
          destruct (awaitWake r s x) as [[ctl st'] w5]
      end.
      cbn [fst snd] in Hs, Hw. subst st' w5 out.
      cbn [fst snd fs clock reads trace crt]. rewrite Ht, Hfs. subst w2. cbn [trace fs].
      split; [assumption |]. split; [| split; reflexivity].
      rewrite <- !app_assoc. reflexivity. }
  split; [eauto |]. split; [| split; [| split]]; auto using loop_step.
  rewrite Htr, !writes_app.
  assert (writes (reloadLog flags r w) = []) as ->
    by (unfold reloadLog; destruct (reloaded flags r w); reflexivity).
  assert (writes (wakeLog r) = []) as ->
    by (unfold wakeLog; destruct (wake r); reflexivity).
  cbn. rewrite app_nil_r. reflexivity.
Qed.

Lemma rejected_response_retried_at_minimum_witness :
  fs (snd (loopBody (ext := Sample.toy) Sample.flags "/run/ee/crt.pem" Sample.anchors
             (Sample.round (Ok (Sample.response Sample.otherBytes [])) TimerFired)
             SampleRuns.holding SampleRuns.running)) =
    fs SampleRuns.running /\
  crt (snd (fst (loopBody (ext := Sample.toy) Sample.flags "/run/ee/crt.pem" Sample.anchors
                   (Sample.round (Ok (Sample.response Sample.otherBytes [])) TimerFired)
                   SampleRuns.holding SampleRuns.running))) = None.
Proof.
  destruct (rejected_response_retried_at_minimum (ext := Sample.toy)
              Sample.flags "/run/ee/crt.pem" Sample.anchors
              (Sample.round (Ok (Sample.response Sample.otherBytes [])) TimerFired) []
              SampleRuns.holding SampleRuns.running
              (Sample.response Sample.otherBytes []))
    as (_ & _ & Hfs & Hcrt & _).
  - reflexivity.
  - intros c (_ & Hparse & pool & Hpool & Hverify & _).
    vm_compute in Hparse. injection Hparse as <-.
    vm_compute in Hpool. injection Hpool as <-.
    vm_compute in Hverify. discriminate.
  - split; assumption.
Defined.

(** ** The token *)

Lemma Token_nextRequest (flags : Flags) (r : Round) (st : LoopState) (w : World) :
  Token (nextRequest flags r st w) =
    match reloaded flags r w with
    | Ok tokenb => tokenb
    | Err _ => Token (certifyReq st)
    end.
Proof. unfold nextRequest. destruct (reloaded flags r w); reflexivity. Qed.


(** On the sample: the token file is rotated before the round, and the
    round sends and keeps the new token; then the file is gone, and the
    next round logs the failure and sends the token it kept. *)
Example loopBody_reloads_token_sample :
  map Token
    (certifies
       (trace (snd (loop (ext := Sample.toy) Sample.flags "/run/ee/crt.pem" Sample.anchors
                      [SampleRuns.tokenRotated TimerFired; SampleRuns.tokenGone TimerFired]
                      SampleRuns.holding SampleRuns.running)))) =
    [SampleRuns.newToken; SampleRuns.newToken] /\
  Token (certifyReq (fst (loop (ext := Sample.toy) Sample.flags "/run/ee/crt.pem"
                            Sample.anchors
                            [SampleRuns.tokenRotated TimerFired;
                             SampleRuns.tokenGone TimerFired]
                            SampleRuns.holding SampleRuns.running))) =
    SampleRuns.newToken.
Proof. split; vm_compute; reflexivity. Qed.

(** X22: over a run of the loop, the tokens of the requests sent are,
    round by round, what the latest successful read returned, and the
    token the loop was entered with as long as none succeeded. *)
Lemma loop_tokens {ext : Externals}
    (flags : Flags) (crtPath : string) (verify : VerifyOptions)
    (rounds : list Round) (st : LoopState) (w : World) :
  map Token (certifies (trace (snd (loop flags crtPath verify rounds st w)))) =
    (map Token (certifies (trace w)) ++
       tokensToSend (Token (certifyReq st))
         (reloads flags crtPath verify rounds st w))%list.
Proof.
  revert st w. induction rounds as [| r rounds IH]; intros st w.
  - cbn. rewrite app_nil_r. reflexivity.
  - rewrite loop_step, IH. cbn [reloads].
    destruct (loopBody_summary flags crtPath verify r st w) as (mid & Htr & Hmid & Hreq & _).
    rewrite Htr, Hreq.
    rewrite certifies_app, certifies_app, certifies_reloadLog. cbn.
    rewrite certifies_app, Hmid, certifies_wakeLog. cbn.
    rewrite map_app, <- app_assoc. cbn. rewrite Token_nextRequest.
    destruct (reloaded flags r w); reflexivity.
Qed.

(** The loop is entered with the token read at start-up. *)
Example token_reused_when_gone :
  map Token
    (certifies
       (trace (snd (main (ext := Sample.toy) Sample.flags Sample.startup
                      [Sample.round (Ok (Sample.response Sample.leafBytes [])) TimerFired;
                       SampleRuns.tokenGone TimerFired]
                      SampleRuns.running)))) =
    [Sample.tokenBytes; Sample.tokenBytes] /\
  In (ELog ErrorLevel "Failed to reload token: %s"
        [AErr (PathError "open" "/run/token" ENOENT)])
     (trace (snd (main (ext := Sample.toy) Sample.flags Sample.startup
                    [Sample.round (Ok (Sample.response Sample.leafBytes [])) TimerFired;
                     SampleRuns.tokenGone TimerFired]
                    SampleRuns.running))).
Proof.
  split; [vm_compute; reflexivity |].
  vm_compute. auto 20.
Qed.

(** ** The start-up of the identity service *)

Section ServiceStartup.
Context {ext : Externals} {lib : IdentityService.Library}.

(** The runs of [main]: it fails before the verification; the
    verification fails; it fails after the verification and before it
    opens anything; it fails to listen; it serves. *)
Lemma service_main_cases (flags : IdentityService.Flags) (stop : bool) (w : World) :
  (exists format args,
     IdentityService.main flags stop w =
       (IdentityService.Exited 1, after w [ELog FatalLevel format args; EExit 1]))
  \/
  (exists c roots err format args,
     loadedIssuer flags (fs w) = Some (c, roots) /\
     IdentityService.tls_Crt_Verify c roots (expectedName flags) = Some err /\
     IdentityService.main flags stop w =
       (IdentityService.Exited 1,
        after w [EVerifyIssuer c roots (expectedName flags);
                 ELog FatalLevel format args; EExit 1]))
  \/
  (exists c roots format args,
     loadedIssuer flags (fs w) = Some (c, roots) /\
     IdentityService.tls_Crt_Verify c roots (expectedName flags) = None /\
     IdentityService.main flags stop w =
       (IdentityService.Exited 1,
        after w [EVerifyIssuer c roots (expectedName flags);
                 ELog FatalLevel format args; EExit 1]))
  \/
  (exists c roots format args,
     loadedIssuer flags (fs w) = Some (c, roots) /\
     IdentityService.tls_Crt_Verify c roots (expectedName flags) = None /\
     IdentityService.main flags stop w =
       (IdentityService.Exited 1,
        after w [EVerifyIssuer c roots (expectedName flags);
                 EAdminServer (IdentityService.adminAddr flags);
                 EListen (IdentityService.addr flags);
                 ELog FatalLevel format args; EExit 1]))
  \/
  (exists c roots,
     loadedIssuer flags (fs w) = Some (c, roots) /\
     IdentityService.tls_Crt_Verify c roots (expectedName flags) = None /\
     IdentityService.main flags stop w =
       (if stop then IdentityService.Stopped else IdentityService.Serving,
        after w ([EVerifyIssuer c roots (expectedName flags);
                  EAdminServer (IdentityService.adminAddr flags);
                  EListen (IdentityService.addr flags);
                  EServe (IdentityService.addr flags)] ++
                 if stop
                 then [ELog InfoLevel "shutting down gRPC server on %s"
                         [AStr (IdentityService.addr flags)];
                       EGracefulStop]
                 else []))).
Proof.
  unfold expectedName, after, loadedIssuer.
  remember (IdentityService.main flags stop w) as out eqn:Hout.
  unfold IdentityService.main, IdentityService.fatal, IdentityService.ReadPEMCreds,
    log_Fatalf, log_Infof, bind, emit, ReadFile, ret in Hout.
  destruct (IdentityService.idctl_NewTrustDomain _ _) as [dom | e].
  2: { left. subst out. cbn. rewrite <- app_assoc. eauto. }
  cbv beta iota zeta in Hout.
  destruct (ioutil_ReadFile (fs w) (IdentityService.trustAnchorsPath flags)) as [tab | e].
  2: { left. subst out. cbn. rewrite <- app_assoc. eauto. }
  destruct (tls_DecodePEMCertPool tab) as [trustAnchors | e].
  2: { left. subst out. cbn. rewrite <- app_assoc. eauto. }
  cbv beta iota zeta in Hout.
  destruct (IdentityService.tls_ReadPEMCreds (fs w) _ _) as [creds | e].
  2: { left. subst out. cbn. rewrite <- app_assoc. eauto. }
  cbv beta iota zeta in Hout.
  destruct (IdentityService.tls_Crt_Verify (Crt_of creds) trustAnchors _) as [verr |] eqn:Hv.
  { right. left. subst out. cbn. rewrite <- !app_assoc. eauto 12. }
  destruct (IdentityService.k8s_NewClientSet _) as [k8s | e].
  2: { right. right. left. subst out. cbn. rewrite <- !app_assoc. eauto 12. }
  destruct (IdentityService.idctl_NewK8sTokenValidator k8s dom) as [v | e].
  2: { right. right. left. subst out. cbn. rewrite <- !app_assoc. eauto 12. }
  cbv beta iota zeta in Hout.
  destruct (IdentityService.net_Listen "tcp" (IdentityService.addr flags)) as [lis | e].
  2: { right. right. right. left. subst out. cbn. rewrite <- !app_assoc. eauto 12. }
  right. right. right. right. exists (Crt_of creds), trustAnchors.
  split; [reflexivity |]. split; [assumption |].
  subst out. destruct stop; cbn; rewrite <- !app_assoc; reflexivity.
Qed.

End ServiceStartup.



Example issuer_signed_by_root_starts :
  IdentityService.main (ext := Sample.toy) (lib := SampleService.toyLib)
    SampleService.flags false
    (Sample.world (SampleService.files Sample.leafBytes) 100) =
    (IdentityService.Serving,
     after (Sample.world (SampleService.files Sample.leafBytes) 100)
       [EVerifyIssuer (SampleService.issuerCrt Sample.leaf) [Sample.root]
          "identity.linkerd.cluster.local";
        EAdminServer ":9996"; EListen ":8083"; EServe ":8083"]).
Proof. vm_compute. reflexivity. Qed.

(** * Further properties of the agent and of the service *)

(** ** The refresh interval *)

Lemma scaled_le_fraction (expiry : Duration) :
  0 <= expiry -> 5 * scaled expiry <= 4 * expiry.
Proof.
  unfold scaled. change Second with 1000000000.
  change (800 * Millisecond) with 800000000. intros H.
  rewrite Z.quot_div_nonneg by lia.
  pose proof (Z.mul_div_le expiry 1000000000 ltac:(lia)). lia.
Qed.

Lemma beforeExpiry_ge_800ms (now t : Time) : 800 * Millisecond <= beforeExpiry now t.
Proof.
  destruct (Z.lt_ge_cases (Until now t) MIN_REFRESH_TIME) as [H | H].
  - rewrite beforeExpiry_short by assumption. vm_compute. discriminate.
  - rewrite beforeExpiry_long by assumption.
    assert (800 * Millisecond <= scaled (Until now t)).
    { unfold scaled, MIN_REFRESH_TIME in *. change Second with 1000000000 in *.
      change (800 * Millisecond) with 800000000.
      rewrite Z.quot_div_nonneg by lia.
      assert (1 <= Until now t / 1000000000) by (apply Z.div_le_lower_bound; lia).
      lia. }
    assert (800 * Millisecond <= MAX_REFRESH_TIME) by (vm_compute; discriminate).
    lia.
Qed.

(** X1: whatever the certificate and the clock, the interval that
    [beforeExpiry] returns is positive and at most [MAX_REFRESH_TIME]. *)
Theorem beforeExpiry_positive_bounded (now t : Time) :
  0 < beforeExpiry now t <= MAX_REFRESH_TIME.
Proof.
  split.
  - pose proof (beforeExpiry_ge_800ms now t) as H.
    change (800 * Millisecond) with 800000000 in H. lia.
  - destruct (Z.lt_ge_cases (Until now t) MIN_REFRESH_TIME) as [H | H].
    + rewrite beforeExpiry_short by assumption. vm_compute. discriminate.
    + rewrite beforeExpiry_long by assumption. lia.
Qed.

(** X2: with less than a second of validity left, and so for every
    certificate that has expired, the interval is [MIN_REFRESH_TIME]. *)
Theorem beforeExpiry_under_a_second (now t : Time) :
  t < now + Second -> beforeExpiry now t = MIN_REFRESH_TIME.
Proof.
  intros H. apply beforeExpiry_short.
  unfold Until, Sub.
  destruct (Z.ltb_spec (t - now) minDuration); [vm_compute; reflexivity |].
  destruct (Z.ltb_spec maxDuration (t - now)).
  - unfold maxDuration in *. change Second with 1000000000 in H. lia.
  - unfold MIN_REFRESH_TIME. lia.
Qed.

Lemma beforeExpiry_under_a_second_witness :
  beforeExpiry (5 * Second) (5 * Second + 999 * Millisecond) = MIN_REFRESH_TIME.
Proof.
  apply beforeExpiry_under_a_second. vm_compute. reflexivity.
Defined.

(** X3: with at least a second of validity left, the interval is at most
    four fifths of what is left: the refresh comes before the expiry. *)
Theorem beforeExpiry_before_expiry (now t : Time) :
  MIN_REFRESH_TIME <= Until now t ->
  5 * beforeExpiry now t <= 4 * Until now t /\ beforeExpiry now t < Until now t.
Proof.
  intros H. rewrite beforeExpiry_long by assumption.
  assert (0 < Until now t) by (unfold MIN_REFRESH_TIME in H;
                               change Second with 1000000000 in H; lia).
  pose proof (scaled_le_fraction (Until now t) ltac:(lia)). lia.
Qed.

Lemma beforeExpiry_before_expiry_witness :
  5 * beforeExpiry 0 (100 * Second) <= 4 * Until 0 (100 * Second) /\
  beforeExpiry 0 (100 * Second) < Until 0 (100 * Second).
Proof.
  apply beforeExpiry_before_expiry. vm_compute. discriminate.
Defined.

(** ** Writes *)

Lemma WriteFile_stored (files : gmap string Node) (p : string) (data : bytes) (perm : Z) :
  fst (ioutil_WriteFile files p data perm) = None ->
  exists m, snd (ioutil_WriteFile files p data perm) !! p = Some (Regular m data).
Proof.
  unfold ioutil_WriteFile.
  destruct (files !! p) as [[m | m d | e] |]; cbn [fst snd]; try discriminate.
  - destruct (owner_writable m); cbn [fst snd]; [| discriminate].
    intros _. exists m. apply lookup_insert_eq.
  - destruct (files !! parentDir p) as [[dm | dm d | e] |]; cbn [fst snd];
      try discriminate.
    destruct (owner_writable dm && owner_searchable dm); cbn [fst snd]; [| discriminate].
    intros _. exists perm. apply lookup_insert_eq.
Qed.

Lemma WriteFile_failed (files : gmap string Node) (p : string) (data : bytes) (perm : Z)
    (e : error) :
  fst (ioutil_WriteFile files p data perm) = Some e ->
  snd (ioutil_WriteFile files p data perm) = files.
Proof.
  unfold ioutil_WriteFile.
  destruct (files !! p) as [[m | m d | e'] |]; cbn [fst snd]; try reflexivity;
    try discriminate.
  - destruct (owner_writable m); cbn [fst snd]; [discriminate | reflexivity].
  - destruct (files !! parentDir p) as [[dm | dm d | e'] |]; cbn [fst snd];
      try reflexivity.
    destruct (owner_writable dm && owner_searchable dm); cbn [fst snd];
      [discriminate | reflexivity].
Qed.

Lemma WriteFile_elsewhere (files : gmap string Node) (p q : string) (data : bytes)
    (perm : Z) :
  q <> p -> snd (ioutil_WriteFile files p data perm) !! q = files !! q.
Proof.
  intros Hne. unfold ioutil_WriteFile.
  destruct (files !! p) as [[m | m d | e'] |]; cbn [fst snd]; try reflexivity.
  - destruct (owner_writable m); cbn [fst snd]; [| reflexivity].
    apply lookup_insert_ne. congruence.
  - destruct (files !! parentDir p) as [[dm | dm d | e'] |]; cbn [fst snd];
      try reflexivity.
    destruct (owner_writable dm && owner_searchable dm); cbn [fst snd]; [| reflexivity].
    apply lookup_insert_ne. congruence.
Qed.

(** ** The end-entity directory, further *)

(** X4: when [checkEndEntityDir] succeeds, the path names a directory,
    the three paths it returns are [key], [csr] and [crt.pem] joined to
    it, and [os.Stat] reports for each of the three that nothing is
    there. *)
Theorem checkEndEntityDir_success {ext : Externals}
    (dir : string) (w : World) (keyPath csrPath crtPath : string) :
  fst (checkEndEntityDir dir w) = (keyPath, csrPath, crtPath, None) ->
  String.eqb dir "" = false /\
  (exists m, fs w !! dir = Some (Directory m)) /\
  keyPath = filepath_Join dir "key" /\
  csrPath = filepath_Join dir "csr" /\
  crtPath = filepath_Join dir "crt.pem" /\
  forall n, In n artifacts ->
    exists e, os_Stat (fs w) (filepath_Join dir n) = Err e /\ IsNotExist e = true.
Proof.
  unfold checkEndEntityDir, checkNotExists, bind, Stat, ret.
  destruct (String.eqb dir "") eqn:Hdir; [cbn; discriminate |].
  unfold os_Stat at 1.
  destruct (fs w !! dir) as [[m | m d | e] |] eqn:Hnode; cbn [fst IsDir Mode negb];
    try discriminate.
  destruct (Perm m =? octal 7 0 0); [cbn; discriminate |].
  destruct (os_Stat (fs w) (filepath_Join dir "key")) as [i1 | e1] eqn:H1;
    [cbn; discriminate |].
  destruct (IsNotExist e1) eqn:N1; [| cbn; discriminate].
  destruct (os_Stat (fs w) (filepath_Join dir "csr")) as [i2 | e2] eqn:H2;
    [cbn; discriminate |].
  destruct (IsNotExist e2) eqn:N2; [| cbn; discriminate].
  destruct (os_Stat (fs w) (filepath_Join dir "crt.pem")) as [i3 | e3] eqn:H3;
    [cbn; discriminate |].
  destruct (IsNotExist e3) eqn:N3; [| cbn; discriminate].
  cbn. intros H. injection H as <- <- <-.
  repeat split; eauto.
  intros n [<- | [<- | [<- | []]]]; eauto.
Qed.

Lemma checkEndEntityDir_success_witness :
  exists e,
    os_Stat (fs (Sample.world (Sample.files (octal 7 5 5)) 0))
      (filepath_Join (Externals := Sample.toy) "/run/ee" "crt.pem") = Err e /\
    IsNotExist e = true.
Proof.
  destruct (checkEndEntityDir_success (ext := Sample.toy) "/run/ee"
              (Sample.world (Sample.files (octal 7 5 5)) 0)
              "/run/ee/key" "/run/ee/csr" "/run/ee/crt.pem") as (_ & _ & _ & _ & _ & H).
  - vm_compute. reflexivity.
  - apply H. cbn. auto.
Defined.

(** X5: [checkEndEntityDir] only inspects: it leaves the files, the
    clock and the trace as they are; and when it returns an error the
    three paths it returns are empty. *)
Theorem checkEndEntityDir_inspects_only {ext : Externals} (dir : string) (w : World) :
  snd (checkEndEntityDir dir w) = w /\
  (fst (checkEndEntityDir dir w) =
     (filepath_Join dir "key", filepath_Join dir "csr", filepath_Join dir "crt.pem", None)
   \/ exists e, fst (checkEndEntityDir dir w) = ("", "", "", Some e)).
Proof.
  split; [apply checkEndEntityDir_world |].
  unfold checkEndEntityDir, checkNotExists, bind, Stat, ret.
  destruct (String.eqb dir ""); [cbn; eauto |].
  destruct (os_Stat (fs w) dir) as [s | e]; [| cbn; eauto].
  destruct (negb (IsDir s)); [cbn; eauto |].
  destruct (Perm (Mode s) =? octal 7 0 0); [cbn; eauto |].
  destruct (os_Stat (fs w) (filepath_Join dir "key")) as [i1 | e1]; [cbn; eauto |].
  destruct (IsNotExist e1); [| cbn; eauto].
  destruct (os_Stat (fs w) (filepath_Join dir "csr")) as [i2 | e2]; [cbn; eauto |].
  destruct (IsNotExist e2); [| cbn; eauto].
  destruct (os_Stat (fs w) (filepath_Join dir "crt.pem")) as [i3 | e3]; [cbn; eauto |].
  destruct (IsNotExist e3); cbn; eauto.
Qed.

(** X6: a path that does not name a directory (nothing is there, or a
    file, or something [os.Stat] cannot resolve, or the empty path) is
    refused. *)
Theorem checkEndEntityDir_not_a_directory {ext : Externals} (dir : string) (w : World) :
  (forall m, fs w !! dir <> Some (Directory m)) ->
  exists e, fst (checkEndEntityDir dir w) = ("", "", "", Some e).
Proof.
  intros Hnd. unfold checkEndEntityDir, bind, Stat, ret, os_Stat.
  destruct (String.eqb dir ""); [cbn; eauto |].
  destruct (fs w !! dir) as [[m | m d | e] |]; cbn; eauto.
  destruct (Hnd m eq_refl).
Qed.

Lemma checkEndEntityDir_not_a_directory_witness :
  exists e,
    fst (checkEndEntityDir (ext := Sample.toy) "/run/token"
           (Sample.world (Sample.files (octal 7 5 5)) 0)) = ("", "", "", Some e).
Proof.
  apply (checkEndEntityDir_not_a_directory (ext := Sample.toy)).
  intros m H. vm_compute in H. discriminate.
Defined.

(** ** The trust anchors *)

(** X7: when [loadVerifier] succeeds, the path is not empty, the file
    was read and decoded, and the options it returns have the decoded
    pool as roots and no intermediates. *)
Theorem loadVerifier_success {ext : Externals}
    (path : string) (w : World) (verify : VerifyOptions) :
  fst (loadVerifier path w) = (verify, None) ->
  String.eqb path "" = false /\
  exists b anchors,
    ioutil_ReadFile (fs w) path = Ok b /\
    tls_DecodePEMCertPool b = Ok anchors /\
    verify = {| Roots := Some anchors; Intermediates := None |}.
Proof.
  unfold loadVerifier, bind, ReadFile, ret.
  destruct (String.eqb path ""); [cbn; discriminate |].
  destruct (ioutil_ReadFile (fs w) path) as [b | e]; [| cbn; discriminate].
  destruct (tls_DecodePEMCertPool b) as [anchors | e] eqn:Hd; [| cbn; discriminate].
  cbn. intros H. injection H as <-. eauto 6.
Qed.

Lemma loadVerifier_success_witness :
  exists b anchors,
    ioutil_ReadFile (fs (Sample.world (Sample.files (octal 7 5 5)) 0))
      "/run/anchors.pem" = Ok b /\
    tls_DecodePEMCertPool (Externals := Sample.toy) b = Ok anchors /\
    Sample.anchors = {| Roots := Some anchors; Intermediates := None |}.
Proof.
  apply (loadVerifier_success (ext := Sample.toy) "/run/anchors.pem"
           (Sample.world (Sample.files (octal 7 5 5)) 0) Sample.anchors).
  vm_compute. reflexivity.
Defined.

(** X8: [loadVerifier] changes nothing, and whenever it returns an error
    (no path, a file that cannot be read, anchors that do not decode) the
    options it returns are empty: no roots are set. *)
Theorem loadVerifier_failure_empty {ext : Externals} (path : string) (w : World) :
  snd (loadVerifier path w) = w /\
  (snd (fst (loadVerifier path w)) = None \/
   fst (fst (loadVerifier path w)) = zeroVerifyOptions) /\
  (path = "" ->
   fst (loadVerifier path w) =
     (zeroVerifyOptions, Some (errorString "No trust anchors specified"))).
Proof.
  split; [apply loadVerifier_world |]. split.
  - unfold loadVerifier, bind, ReadFile, ret.
    destruct (String.eqb path ""); [cbn; auto |].
    destruct (ioutil_ReadFile (fs w) path) as [b | e]; [| cbn; auto].
    destruct (tls_DecodePEMCertPool b); cbn; auto.
  - intros ->. reflexivity.
Qed.

(** ** The signing request *)

(** X9: [generateAndStoreCSR] returns no bytes whenever it returns an
    error.  When it returns no error, the identity is not empty, the
    bytes are those of the request that was created, they were written
    to the path with mode 0400 right after the creation, and the file at
    the path holds exactly them. *)
Theorem generateAndStoreCSR_result
    (create : string -> option PrivateKey -> result bytes)
    (p id : string) (key : option PrivateKey) (w : World) :
  (forall e, snd (fst (generateAndStoreCSR create p id key w)) = Some e ->
     fst (fst (generateAndStoreCSR create p id key w)) = []) /\
  (snd (fst (generateAndStoreCSR create p id key w)) = None ->
     String.eqb id "" = false /\
     create id key = Ok (fst (fst (generateAndStoreCSR create p id key w))) /\
     trace (snd (generateAndStoreCSR create p id key w)) =
       (trace w ++ [ECreateCSR id;
                    EWriteFile p (fst (fst (generateAndStoreCSR create p id key w)))
                      (octal 4 0 0)])%list /\
     exists m,
       fs (snd (generateAndStoreCSR create p id key w)) !! p =
         Some (Regular m (fst (fst (generateAndStoreCSR create p id key w))))).
Proof.
  unfold generateAndStoreCSR, bind, emit, WriteFile, ret.
  destruct (String.eqb id ""); [cbn; split; [auto | discriminate] |].
  cbn [fs clock reads trace].
  destruct (create id key) as [csrb | e0]; [| cbn; split; [auto | discriminate]].
  cbv beta iota. cbn [fs clock reads trace].
  pose proof (WriteFile_stored (fs w) p csrb (octal 4 0 0)) as Hst.
  destruct (ioutil_WriteFile (fs w) p csrb (octal 4 0 0)) as [[werr |] fs'];
    cbn [fst snd fs trace] in *.
  - split; [auto | discriminate].
  - split; [discriminate |]. intros _. rewrite <- app_assoc. auto.
Qed.



(** In a directory that the owner may not write, the same call fails and
    creates nothing. *)
Example generateAndStoreCSR_read_only_directory :
  generateAndStoreCSR (csrgen Sample.startup) "/run/ee/csr" (name Sample.flags)
    (Some {| D := 42 |}) (Sample.world (Sample.files (octal 5 5 5)) 0) =
    (([], Some (errorString "Failed to write CSR: open /run/ee/csr: permission denied")),
     after (Sample.world (Sample.files (octal 5 5 5)) 0)
       [ECreateCSR (name Sample.flags);
        EWriteFile "/run/ee/csr" [Byte.x63; Byte.x73; Byte.x72] (octal 4 0 0)]).
Proof. vm_compute. reflexivity. Qed.

(** ** Validation of the response, further *)

Section ValidationMore.
Context {ext : Externals}.

Lemma parseIntermediates_error (bs : list bytes) (pool : CertPool) (b : bytes) (e : error) :
  In b bs -> x509_ParseCertificate b = Err e ->
  exists e', parseIntermediates bs pool = Err e'.
Proof.
  revert pool. induction bs as [| b0 bs IH]; intros pool Hin Hb; [destruct Hin |].
  cbn. destruct (x509_ParseCertificate b0) as [c | e0] eqn:H0; [| eauto].
  destruct Hin as [-> | Hin]; [congruence | eauto].
Qed.

(** The run of [validateAndStoreCrt] on a response that passes: three
    readings of the clock, then the write. *)
Lemma validateAndStoreCrt_accepted_run (rsp : CertifyResponse) (crtPath : string)
    (verify : VerifyOptions) (w : World) (c : Certificate) :
  Accepted rsp verify (clock w) (reads w) c ->
  validateAndStoreCrt rsp crtPath verify w =
    ((Some c, fst (ioutil_WriteFile (fs w) crtPath (LeafCertificate rsp) (octal 6 0 0))),
     {| fs := snd (ioutil_WriteFile (fs w) crtPath (LeafCertificate rsp) (octal 6 0 0));
        clock := clock w;
        reads := S (S (S (reads w)));
        trace := trace w ++ [EWriteFile crtPath (LeafCertificate rsp) (octal 6 0 0)] |}).
Proof.
  intros (Hne & Hparse & pool & Hpool & Hverify & Hnb & Hna).
  unfold validateAndStoreCrt.
  destruct (LeafCertificate rsp) as [| b leafb] eqn:Hleaf; [congruence |].
  cbn [length Nat.eqb]. rewrite Hparse, Hpool.
  unfold bind, Now, ret. cbn [fst snd fs clock reads trace]. rewrite Hverify.
  cbn [fst snd fs clock reads trace]. unfold Before, After.
  destruct (Z.ltb_spec (clock w (S (reads w))) (NotBefore c)); [lia |].
  cbn [fst snd fs clock reads trace].
  destruct (Z.ltb_spec (NotAfter c) (clock w (S (S (reads w))))); [lia |].
  unfold WriteFile. cbn [fs clock reads trace].
  destruct (ioutil_WriteFile (fs w) crtPath (b :: leafb) (octal 6 0 0)).
  reflexivity.
Qed.

End ValidationMore.

(** X11: [validateAndStoreCrt] never returns neither a certificate nor
    an error; and when it returns no certificate it has written nothing:
    the files and the trace are as before. *)
Theorem validateAndStoreCrt_no_certificate {ext : Externals}
    (rsp : CertifyResponse) (crtPath : string) (verify : VerifyOptions) (w : World) :
  fst (fst (validateAndStoreCrt rsp crtPath verify w)) = None ->
  (exists e, snd (fst (validateAndStoreCrt rsp crtPath verify w)) = Some e) /\
  fs (snd (validateAndStoreCrt rsp crtPath verify w)) = fs w /\
  trace (snd (validateAndStoreCrt rsp crtPath verify w)) = trace w.
Proof.
  destruct (validateAndStoreCrt_cases rsp crtPath verify w)
    as [(c & _ & Hres & _) | (_ & (e & Hres) & Hfs & Htr & _)];
    rewrite Hres; cbn [fst snd]; [discriminate |].
  intros _. eauto.
Qed.

Lemma validateAndStoreCrt_no_certificate_witness :
  fs (snd (validateAndStoreCrt (ext := Sample.toy) (Sample.response Sample.otherBytes [])
             "/run/ee/crt.pem" Sample.anchors SampleRuns.running)) =
    fs SampleRuns.running.
Proof.
  apply (validateAndStoreCrt_no_certificate (ext := Sample.toy)). reflexivity.
Defined.

(** X12: when [validateAndStoreCrt] returns a certificate and no error,
    the certificate is the parse of the leaf of the response, the clock
    was inside its validity window at both checks, and the certificate
    file holds exactly the bytes of the leaf. *)
Theorem validateAndStoreCrt_stored {ext : Externals}
    (rsp : CertifyResponse) (crtPath : string) (verify : VerifyOptions) (w : World)
    (c : Certificate) :
  fst (validateAndStoreCrt rsp crtPath verify w) = (Some c, None) ->
  x509_ParseCertificate (LeafCertificate rsp) = Ok c /\
  NotBefore c <= clock w (S (reads w)) /\
  clock w (S (S (reads w))) <= NotAfter c /\
  exists m,
    fs (snd (validateAndStoreCrt rsp crtPath verify w)) !! crtPath =
      Some (Regular m (LeafCertificate rsp)).
Proof.
  destruct (validateAndStoreCrt_cases rsp crtPath verify w)
    as [(c0 & Hacc & Hres & Hfs & _) | (_ & (e & Hres) & _)];
    rewrite Hres; [| discriminate].
  intros H. injection H as <- Hw.
  destruct Hacc as (_ & Hparse & pool & _ & _ & Hnb & Hna).
  repeat split; auto.
  rewrite Hfs. apply WriteFile_stored. assumption.
Qed.

Lemma validateAndStoreCrt_stored_witness :
  exists m,
    fs (snd (validateAndStoreCrt (ext := Sample.toy) (Sample.response Sample.leafBytes [])
               "/run/ee/crt.pem" Sample.anchors SampleRuns.running)) !! "/run/ee/crt.pem" =
      Some (Regular m Sample.leafBytes).
Proof.
  apply (validateAndStoreCrt_stored (ext := Sample.toy)
           (Sample.response Sample.leafBytes []) "/run/ee/crt.pem" Sample.anchors
           SampleRuns.running Sample.leaf).
  vm_compute. reflexivity.
Defined.

(** X13: an intermediate that does not parse makes [validateAndStoreCrt]
    reject a response whose leaf parses, before the clock is read and
    before anything is verified or written: the world is returned as it
    was. *)
Theorem validateAndStoreCrt_bad_intermediate {ext : Externals}
    (rsp : CertifyResponse) (crtPath : string) (verify : VerifyOptions) (w : World)
    (c : Certificate) (b : bytes) (e : error) :
  LeafCertificate rsp <> [] ->
  x509_ParseCertificate (LeafCertificate rsp) = Ok c ->
  In b (IntermediateCertificates rsp) ->
  x509_ParseCertificate b = Err e ->
  exists e', validateAndStoreCrt rsp crtPath verify w = ((None, Some e'), w).
Proof.
  intros Hne Hparse Hin Hb.
  destruct (parseIntermediates_error _ NewCertPool _ _ Hin Hb) as (e' & He').
  exists e'. unfold validateAndStoreCrt.
  destruct (LeafCertificate rsp) as [| b0 leafb]; [congruence |].
  cbn [length Nat.eqb]. rewrite Hparse, He'. reflexivity.
Qed.

Lemma validateAndStoreCrt_bad_intermediate_witness :
  exists e',
    validateAndStoreCrt (ext := Sample.toy)
      (Sample.response Sample.leafBytes [Sample.rootBytes; [Byte.x01]])
      "/run/ee/crt.pem" Sample.anchors SampleRuns.running =
      ((None, Some e'), SampleRuns.running).
Proof.
  apply (validateAndStoreCrt_bad_intermediate (ext := Sample.toy)
           (Sample.response Sample.leafBytes [Sample.rootBytes; [Byte.x01]])
           "/run/ee/crt.pem" Sample.anchors SampleRuns.running Sample.leaf
           [Byte.x01] (LibError "x509" "malformed certificate")).
  - discriminate.
  - reflexivity.
  - right. left. reflexivity.
  - reflexivity.
Defined.

(** X14: [validateAndStoreCrt] touches no file but the certificate
    file: every other path names after it what it named before. *)
Theorem validateAndStoreCrt_other_files {ext : Externals}
    (rsp : CertifyResponse) (crtPath : string) (verify : VerifyOptions) (w : World)
    (q : string) :
  q <> crtPath ->
  fs (snd (validateAndStoreCrt rsp crtPath verify w)) !! q = fs w !! q.
Proof.
  intros Hq.
  destruct (validateAndStoreCrt_cases rsp crtPath verify w)
    as [(c0 & _ & _ & Hfs & _) | (_ & _ & Hfs & _)]; rewrite Hfs; [| reflexivity].
  apply WriteFile_elsewhere. assumption.
Qed.

Lemma validateAndStoreCrt_other_files_witness :
  fs (snd (validateAndStoreCrt (ext := Sample.toy) (Sample.response Sample.leafBytes [])
             "/run/ee/crt.pem" Sample.anchors SampleRuns.running)) !! "/run/token" =
    fs SampleRuns.running !! "/run/token".
Proof.
  apply (validateAndStoreCrt_other_files (ext := Sample.toy)). discriminate.
Defined.

(** ** The rounds of the loop *)

Section Rounds.
Context {ext : Externals}.

Lemma scheduleRefresh_eq (flags : Flags) (oc : option Certificate) (w : World) :
  scheduleRefresh flags oc w =
    (refreshOf oc (clock w (reads w)),
     {| fs := fs w; clock := clock w;
        reads := match oc with Some _ => S (reads w) | None => reads w end;
        trace := trace w ++ [scheduleLog flags oc (clock w (reads w))] |}).
Proof. destruct oc; reflexivity. Qed.

(** The round, in terms of what the request obtains. *)
Lemma loopBody_eq (flags : Flags) (crtPath : string) (verify : VerifyOptions)
    (r : Round) (st : LoopState) (w : World) :
  loopBody flags crtPath verify r st w =
    let req := nextRequest flags r st w in
    let o := obtainCertificate crtPath verify r st req
               {| fs := changes r (fs w); clock := clock w; reads := reads w;
                  trace := (trace w ++ reloadLog flags r w) ++ [ECertify req] |} in
    let now := clock (snd o) (reads (snd o)) in
    ((match wake r with TimerFired => Continue | StopSignal => EndOfBody end,
      {| certifyReq := req; crt := fst o |}),
     {| fs := fs (snd o); clock := clock (snd o);
        reads := match fst o with Some _ => S (reads (snd o)) | None => reads (snd o) end;
        trace := ((trace (snd o) ++ [scheduleLog flags (fst o) now]) ++
                  [ENewTimer (refreshOf (fst o) now)]) ++ wakeLog r |}).
Proof.
  rewrite loopBody_phases. unfold bind, outside. cbv beta iota zeta.
  rewrite reloadToken_run. unfold emit at 1. cbv beta iota. cbn [fs clock reads trace].
  destruct (obtainCertificate crtPath verify r st (nextRequest flags r st w) _)
    as [oc w3].
  rewrite scheduleRefresh_eq. unfold emit. cbv beta iota. cbn [fst snd fs clock reads trace].
  unfold awaitWake, wakeLog, log_Info, emit, bind, ret.
  destruct (wake r); cbn [fs clock reads trace].
  - rewrite app_nil_r. reflexivity.
  - reflexivity.
Qed.

Lemma obtainCertificate_accepted_run (crtPath : string) (verify : VerifyOptions)
    (r : Round) (st : LoopState) (req : CertifyRequest) (w : World)
    (rsp : CertifyResponse) (c : Certificate) :
  certify r req = Ok rsp ->
  Accepted rsp verify (clock w) (reads w) c ->
  obtainCertificate crtPath verify r st req w =
    (Some c,
     {| fs := snd (ioutil_WriteFile (fs w) crtPath (LeafCertificate rsp) (octal 6 0 0));
        clock := clock w;
        reads := S (S (S (reads w)));
        trace :=
          trace w ++ EWriteFile crtPath (LeafCertificate rsp) (octal 6 0 0) ::
            match fst (ioutil_WriteFile (fs w) crtPath (LeafCertificate rsp) (octal 6 0 0)) with
            | Some err =>
                [ELog ErrorLevel "Failed to validate and store certificate: %s" [AErr err]]
            | None => []
            end |}).
Proof.
  intros Hrsp Hacc. unfold obtainCertificate. rewrite Hrsp.
  unfold bind. rewrite (validateAndStoreCrt_accepted_run _ _ _ _ _ Hacc).
  cbn [fst snd].
  destruct (fst (ioutil_WriteFile (fs w) crtPath (LeafCertificate rsp) (octal 6 0 0)));
    cbn; rewrite <- ?app_assoc; reflexivity.
Qed.

Lemma refreshOf_bounded (oc : option Certificate) (now : Time) :
  0 < refreshOf oc now <= MAX_REFRESH_TIME.
Proof.
  destruct oc as [c |]; cbn.
  - pose proof (beforeExpiry_ge_800ms now (NotAfter c)) as H.
    pose proof (beforeExpiry_le_max now (NotAfter c)).
    change (800 * Millisecond) with 800000000 in H. lia.
  - vm_compute. split; [reflexivity | discriminate].
Qed.

Lemma roundEvent_same (crtPath : string) (a b : CertifyRequest) (e : Event) :
  Identity a = Identity b ->
  CertificateSigningRequest a = CertificateSigningRequest b ->
  roundEvent crtPath a e -> roundEvent crtPath b e.
Proof.
  intros Hi Hc. destruct e; cbn; auto. rewrite Hi, Hc. auto.
Qed.

Lemma nextRequest_same (flags : Flags) (r : Round) (st : LoopState) (w : World) :
  Identity (nextRequest flags r st w) = Identity (certifyReq st) /\
  CertificateSigningRequest (nextRequest flags r st w) =
    CertificateSigningRequest (certifyReq st).
Proof. unfold nextRequest. destruct (reloaded flags r w); auto. Qed.

(** The events of one round, and the files it leaves alone. *)
Lemma loopBody_events (flags : Flags) (crtPath : string) (verify : VerifyOptions)
    (r : Round) (st : LoopState) (w : World) :
  exists evs,
    trace (snd (loopBody flags crtPath verify r st w)) = (trace w ++ evs)%list /\
    Forall (roundEvent crtPath (certifyReq st)) evs /\
    forall q, q <> crtPath ->
      fs (snd (loopBody flags crtPath verify r st w)) !! q = changes r (fs w) !! q.
Proof.
  rewrite loopBody_eq. cbv zeta. cbn [fst snd fs trace].
  set (req := nextRequest flags r st w).
  set (w2 := {| fs := changes r (fs w); clock := clock w; reads := reads w;
                trace := (trace w ++ reloadLog flags r w) ++ [ECertify req] |}).
  set (o := obtainCertificate crtPath verify r st req w2).
  assert (exists ev,
            trace (snd o) = (trace w2 ++ ev)%list /\
            Forall (roundEvent crtPath (certifyReq st)) ev /\
            forall q, q <> crtPath -> fs (snd o) !! q = changes r (fs w) !! q)
    as (ev & Hev & Hok & Hfs).
  { subst o.
    destruct (obtainCertificate_cases crtPath verify r st req w2)
      as [(err & _ & ->) | [(rsp & c & _ & _ & _ & Hf & _ & Ht)
                           | (rsp & e & _ & _ & _ & _ & Hf & _ & Ht)]].
    - cbn [fst snd fs trace]. eexists. split; [reflexivity |].
      split; [| reflexivity]. repeat constructor. discriminate.
    - rewrite Ht, Hf. eexists. split; [reflexivity |]. split.
      + constructor; [cbn; auto |].
        destruct (fst (ioutil_WriteFile (fs w2) crtPath (LeafCertificate rsp) (octal 6 0 0)));
          repeat constructor. discriminate.
      + intros q Hq. rewrite WriteFile_elsewhere by assumption. reflexivity.
    - rewrite Ht, Hf. eexists. split; [reflexivity |].
      split; [| reflexivity]. repeat constructor. discriminate. }
  rewrite Hev. subst w2. cbn [trace].
  exists (reloadLog flags r w ++ [ECertify req] ++ ev ++
            [scheduleLog flags (fst o) (clock (snd o) (reads (snd o)))] ++
            [ENewTimer (refreshOf (fst o) (clock (snd o) (reads (snd o))))] ++
            wakeLog r)%list.
  split; [rewrite <- !app_assoc; reflexivity |]. split; [| assumption].
  rewrite !Forall_app. repeat split.
  - unfold reloadLog. destruct (reloaded flags r w); repeat constructor. discriminate.
  - repeat constructor; apply (nextRequest_same flags r st w).
  - assumption.
  - repeat constructor. destruct (fst o); cbn; discriminate.
  - repeat constructor; apply refreshOf_bounded.
  - unfold wakeLog. destruct (wake r); repeat constructor. discriminate.
Qed.

(** The events of a run of the loop. *)
Lemma loop_events (flags : Flags) (crtPath : string) (verify : VerifyOptions)
    (rounds : list Round) (st : LoopState) (w : World) :
  exists evs,
    trace (snd (loop flags crtPath verify rounds st w)) = (trace w ++ evs)%list /\
    Forall (roundEvent crtPath (certifyReq st)) evs.
Proof.
  revert st w. induction rounds as [| r rounds IH]; intros st w.
  - exists []. cbn. rewrite app_nil_r. auto.
  - rewrite loop_step.
    destruct (loopBody_events flags crtPath verify r st w) as (ev1 & Htr1 & Hok1 & _).
    destruct (loopBody_summary flags crtPath verify r st w) as (_ & _ & _ & Hreq & _).
    destruct (IH (snd (fst (loopBody flags crtPath verify r st w)))
                 (snd (loopBody flags crtPath verify r st w))) as (ev2 & Htr2 & Hok2).
    exists (ev1 ++ ev2)%list. rewrite Htr2, Htr1, <- app_assoc. split; [reflexivity |].
    apply Forall_app. split; [assumption |].
    eapply Forall_impl; [exact Hok2 |]. intros e.
    rewrite Hreq. apply roundEvent_same; apply (nextRequest_same flags r st w).
Qed.

End Rounds.

(** X15: when the request of a round fails, the agent logs the failure,
    keeps the certificate it held, writes nothing (the files are as the
    outside left them), and sets the timer by the certificate it holds:
    [beforeExpiry] of its [NotAfter], or [MIN_REFRESH_TIME] when it holds
    none. *)
Theorem loopBody_request_failed {ext : Externals}
    (flags : Flags) (crtPath : string) (verify : VerifyOptions)
    (r : Round) (st : LoopState) (w : World) (err : error) :
  certify r (nextRequest flags r st w) = Err err ->
  crt (snd (fst (loopBody flags crtPath verify r st w))) = crt st /\
  fs (snd (loopBody flags crtPath verify r st w)) = changes r (fs w) /\
  trace (snd (loopBody flags crtPath verify r st w)) =
    (trace w ++ reloadLog flags r w ++
       [ECertify (nextRequest flags r st w);
        ELog ErrorLevel "Failed to obtain certificate: %s" [AErr err];
        scheduleLog flags (crt st) (clock w (reads w));
        ENewTimer (refreshOf (crt st) (clock w (reads w)))] ++ wakeLog r)%list.
Proof.
  intros Herr. rewrite loopBody_eq. cbv zeta.
  unfold obtainCertificate. rewrite Herr.
  unfold bind, log_Errorf, emit, ret. cbn [fst snd fs clock reads trace crt].
  repeat split. rewrite <- !app_assoc. reflexivity.
Qed.

Lemma loopBody_request_failed_witness :
  crt (snd (fst (loopBody (ext := Sample.toy) Sample.flags "/run/ee/crt.pem"
                   Sample.anchors
                   (Sample.round (Err (LibError "grpc" "unavailable")) TimerFired)
                   SampleRuns.holding SampleRuns.running))) = Some Sample.leaf /\
  In (ENewTimer (80 * Second))
     (trace (snd (loopBody (ext := Sample.toy) Sample.flags "/run/ee/crt.pem"
                    Sample.anchors
                    (Sample.round (Err (LibError "grpc" "unavailable")) TimerFired)
                    SampleRuns.holding SampleRuns.running))).
Proof.
  destruct (loopBody_request_failed (ext := Sample.toy) Sample.flags "/run/ee/crt.pem"
              Sample.anchors
              (Sample.round (Err (LibError "grpc" "unavailable")) TimerFired)
              SampleRuns.holding SampleRuns.running (LibError "grpc" "unavailable"))
    as (Hcrt & _ & Htr).
  - reflexivity.
  - split; [exact Hcrt |]. rewrite Htr. vm_compute. auto 10.
Defined.

(** X16: when the answer of a round passes every check, the agent holds
    the certificate of the answer from then on, also when the write of
    the certificate file fails (the failure is logged); and the timer is
    set by that certificate, at the fourth reading of the clock in the
    round. *)
Theorem loopBody_accepted {ext : Externals}
    (flags : Flags) (crtPath : string) (verify : VerifyOptions)
    (r : Round) (st : LoopState) (w : World) (rsp : CertifyResponse) (c : Certificate) :
  certify r (nextRequest flags r st w) = Ok rsp ->
  Accepted rsp verify (clock w) (reads w) c ->
  crt (snd (fst (loopBody flags crtPath verify r st w))) = Some c /\
  fs (snd (loopBody flags crtPath verify r st w)) =
    snd (ioutil_WriteFile (changes r (fs w)) crtPath (LeafCertificate rsp) (octal 6 0 0)) /\
  trace (snd (loopBody flags crtPath verify r st w)) =
    (trace w ++ reloadLog flags r w ++
       [ECertify (nextRequest flags r st w);
        EWriteFile crtPath (LeafCertificate rsp) (octal 6 0 0)] ++
       match fst (ioutil_WriteFile (changes r (fs w)) crtPath (LeafCertificate rsp)
                    (octal 6 0 0)) with
       | Some werr =>
           [ELog ErrorLevel "Failed to validate and store certificate: %s" [AErr werr]]
       | None => []
       end ++
       [scheduleLog flags (Some c) (clock w (S (S (S (reads w)))));
        ENewTimer (beforeExpiry (clock w (S (S (S (reads w))))) (NotAfter c))] ++
       wakeLog r)%list.
Proof.
  intros Hrsp Hacc. rewrite loopBody_eq. cbv zeta.
  rewrite (obtainCertificate_accepted_run crtPath verify r st _
             {| fs := changes r (fs w); clock := clock w; reads := reads w;
                trace := (trace w ++ reloadLog flags r w) ++
                         [ECertify (nextRequest flags r st w)] |}
             rsp c Hrsp Hacc).
  cbn [fst snd fs clock reads trace crt refreshOf].
  repeat split. rewrite <- !app_assoc. reflexivity.
Qed.

Lemma loopBody_accepted_witness :
  crt (snd (fst (loopBody (ext := Sample.toy) Sample.flags "/run/ee/crt.pem"
                   Sample.anchors
                   (Sample.round (Ok (Sample.response Sample.leafBytes [])) TimerFired)
                   {| certifyReq := Sample.request; crt := None |}
                   SampleRuns.running))) = Some Sample.leaf.
Proof.
  apply (loopBody_accepted (ext := Sample.toy) Sample.flags "/run/ee/crt.pem"
           Sample.anchors
           (Sample.round (Ok (Sample.response Sample.leafBytes [])) TimerFired)
           {| certifyReq := Sample.request; crt := None |}
           SampleRuns.running (Sample.response Sample.leafBytes []) Sample.leaf).
  - reflexivity.
  - split; [discriminate |]. split; [reflexivity |].
    exists []. repeat split; vm_compute; discriminate.
Defined.

(** X17: in a run of the loop, of any number of rounds and whatever the
    service answers, every write is a write to the certificate path that
    the loop was given, with mode 0600; no other path is written. *)
Theorem loop_writes_only_certificate {ext : Externals}
    (flags : Flags) (crtPath : string) (verify : VerifyOptions)
    (rounds : list Round) (st : LoopState) (w : World) :
  exists evs,
    trace (snd (loop flags crtPath verify rounds st w)) = (trace w ++ evs)%list /\
    (forall p data perm,
       In (EWriteFile p data perm) evs -> p = crtPath /\ perm = octal 6 0 0) /\
    (forall q data perm, q <> crtPath -> ~ In (EWriteFile q data perm) evs).
Proof.
  destruct (loop_events flags crtPath verify rounds st w) as (evs & Htr & Hok).
  exists evs. split; [assumption |]. split.
  - intros p data perm Hin.
    exact (proj1 (List.Forall_forall _ _) Hok _ Hin).
  - intros q data perm Hq Hin.
    destruct (proj1 (List.Forall_forall _ _) Hok _ Hin) as (Hp & _). contradiction.
Qed.

(** X18: every request that a run of the loop sends carries the identity
    and the signing request of the request the loop was entered with;
    only the token changes. *)
Theorem loop_requests_same_identity {ext : Externals}
    (flags : Flags) (crtPath : string) (verify : VerifyOptions)
    (rounds : list Round) (st : LoopState) (w : World) :
  exists evs,
    trace (snd (loop flags crtPath verify rounds st w)) = (trace w ++ evs)%list /\
    forall q,
      In (ECertify q) evs ->
      Identity q = Identity (certifyReq st) /\
      CertificateSigningRequest q = CertificateSigningRequest (certifyReq st).
Proof.
  destruct (loop_events flags crtPath verify rounds st w) as (evs & Htr & Hok).
  exists evs. split; [assumption |]. intros q Hin.
  exact (proj1 (List.Forall_forall _ _) Hok _ Hin).
Qed.

(** X19: every timer that a run of the loop sets is for a positive
    interval of at most [MAX_REFRESH_TIME]. *)
Theorem loop_timers_bounded {ext : Externals}
    (flags : Flags) (crtPath : string) (verify : VerifyOptions)
    (rounds : list Round) (st : LoopState) (w : World) :
  exists evs,
    trace (snd (loop flags crtPath verify rounds st w)) = (trace w ++ evs)%list /\
    forall d, In (ENewTimer d) evs -> 0 < d <= MAX_REFRESH_TIME.
Proof.
  destruct (loop_events flags crtPath verify rounds st w) as (evs & Htr & Hok).
  exists evs. split; [assumption |]. intros d Hin.
  exact (proj1 (List.Forall_forall _ _) Hok _ Hin).
Qed.

(** X20: no failure in the loop is fatal: whatever the service answers
    and whatever happens to the files, a run of the loop logs no fatal
    entry and never exits the process; nor does it generate a key, create
    a signing request or dial again. *)
Theorem loop_never_fatal {ext : Externals}
    (flags : Flags) (crtPath : string) (verify : VerifyOptions)
    (rounds : list Round) (st : LoopState) (w : World) :
  exists evs,
    trace (snd (loop flags crtPath verify rounds st w)) = (trace w ++ evs)%list /\
    (forall code, ~ In (EExit code) evs) /\
    (forall format args, ~ In (ELog FatalLevel format args) evs) /\
    ~ In EGenerateKey evs /\
    (forall id, ~ In (ECreateCSR id) evs) /\
    (forall a, ~ In (EDial a) evs).
Proof.
  destruct (loop_events flags crtPath verify rounds st w) as (evs & Htr & Hok).
  exists evs. split; [assumption |].
  pose proof (proj1 (List.Forall_forall _ _) Hok) as H.
  repeat split; repeat intro;
    match goal with Hin : In _ evs |- _ => apply H in Hin; cbn in Hin end;
    try contradiction; congruence.
Qed.

(** X23: a round of the loop touches no file but the certificate file:
    every other path names after the round what the outside left there
    before it. *)
Theorem loopBody_other_files {ext : Externals}
    (flags : Flags) (crtPath : string) (verify : VerifyOptions)
    (r : Round) (st : LoopState) (w : World) (q : string) :
  q <> crtPath ->
  fs (snd (loopBody flags crtPath verify r st w)) !! q = changes r (fs w) !! q.
Proof.
  intros Hq.
  destruct (loopBody_events flags crtPath verify r st w) as (_ & _ & _ & H). auto.
Qed.

Lemma loopBody_other_files_witness :
  fs (snd (loopBody (ext := Sample.toy) Sample.flags "/run/ee/crt.pem" Sample.anchors
             (Sample.round (Ok (Sample.response Sample.leafBytes [])) TimerFired)
             {| certifyReq := Sample.request; crt := None |}
             SampleRuns.running)) !! "/run/token" =
    fs SampleRuns.running !! "/run/token".
Proof.
  apply (loopBody_other_files (ext := Sample.toy)). discriminate.
Defined.

(** ** The start-up of the agent *)

Section AgentStartup.
Context {ext : Externals}.

Lemma generateAndStoreKey_events (gen : result PrivateKey) (p : string) (w : World) :
  exists evs,
    trace (snd (generateAndStoreKey gen p w)) = (trace w ++ evs)%list /\
    Forall startupEvent evs /\ In EGenerateKey evs.
Proof.
  unfold generateAndStoreKey, bind, emit, WriteFile, ret.
  destruct gen as [k | e]; cbn [pair_of fs clock reads trace].
  - exists [EGenerateKey]. cbn. repeat split; auto. repeat constructor.
  - destruct (ioutil_WriteFile (fs w) p (tls_EncodePrivateKeyP8 None) (octal 4 0 0)).
    cbn [fst snd trace]. eexists. rewrite <- app_assoc. split; [reflexivity |].
    split; [repeat constructor | left; reflexivity].
Qed.

Lemma generateAndStoreCSR_events
    (create : string -> option PrivateKey -> result bytes)
    (p id : string) (key : option PrivateKey) (w : World) :
  exists evs,
    trace (snd (generateAndStoreCSR create p id key w)) = (trace w ++ evs)%list /\
    Forall startupEvent evs /\
    (snd (fst (generateAndStoreCSR create p id key w)) = None ->
     String.eqb id "" = false /\
     create id key = Ok (fst (fst (generateAndStoreCSR create p id key w)))).
Proof.
  unfold generateAndStoreCSR, bind, emit, WriteFile, ret.
  destruct (String.eqb id "").
  { exists []. cbn. rewrite app_nil_r. repeat split; [constructor | discriminate ..]. }
  cbn [fs clock reads trace].
  destruct (create id key) as [csrb | e0].
  2: { eexists. cbn. split; [reflexivity |]. split; [repeat constructor | discriminate]. }
  cbv beta iota. cbn [fs clock reads trace].
  destruct (ioutil_WriteFile (fs w) p csrb (octal 4 0 0)) as [[werr |] fs'];
    cbn [fst snd fs trace]; eexists; rewrite <- app_assoc;
    (split; [reflexivity |]); (split; [repeat constructor |]);
    [discriminate | auto].
Qed.

(** The runs of [main]: it exits before it generates anything; it exits
    later in its start-up; it enters its loop. *)
Lemma main_cases (flags : Flags) (su : Startup) (rounds : list Round) (w : World) :
  (exists format args,
     (snd (fst (loadVerifier (trustAnchorsPath flags) w)) <> None \/
      snd (fst (checkEndEntityDir (dir flags) w)) <> None) /\
     main flags su rounds w =
       (Exited 1, after w [ELog FatalLevel format args; EExit 1]))
  \/
  (snd (fst (loadVerifier (trustAnchorsPath flags) w)) = None /\
   snd (fst (checkEndEntityDir (dir flags) w)) = None /\
   exists pre,
     Forall startupEvent pre /\ In EGenerateKey pre /\
     ((exists format args w',
         trace w' = (trace w ++ pre)%list /\
         main flags su rounds w =
           (Exited 1, after w' [ELog FatalLevel format args; EExit 1]))
      \/
      (exists verify keyPath csrPath crtPath key st0 w0,
         fst (loadVerifier (trustAnchorsPath flags) w) = (verify, None) /\
         fst (checkEndEntityDir (dir flags) w) = (keyPath, csrPath, crtPath, None) /\
         trace w0 = (trace w ++ pre)%list /\
         crt st0 = None /\
         Identity (certifyReq st0) = name flags /\
         String.eqb (name flags) "" = false /\
         csrgen su (name flags) key = Ok (CertificateSigningRequest (certifyReq st0)) /\
         String.eqb (tokenPath flags) "" = false /\
         ioutil_ReadFile (fs w0) (tokenPath flags) = Ok (Token (certifyReq st0)) /\
         dial su = None /\
         main flags su rounds w =
           (InLoop (fst (loop flags crtPath verify rounds st0 w0)),
            snd (loop flags crtPath verify rounds st0 w0))))).
Proof.
  remember (main flags su rounds w) as out eqn:Hout.
  unfold main, fatal, log_Fatalf, bind in Hout.
  pose proof (loadVerifier_world (trustAnchorsPath flags) w) as Hvw.
  destruct (loadVerifier (trustAnchorsPath flags) w) as [[verify [e |]] wv];
    cbn [fst snd] in *; subst wv.
  { left. subst out. cbn. unfold after. rewrite <- app_assoc.
    do 2 eexists. split; [left; discriminate | reflexivity]. }
  pose proof (checkEndEntityDir_world (dir flags) w) as Hdw.
  destruct (checkEndEntityDir (dir flags) w) as [[[[keyPath csrPath] crtPath] [e |]] wd];
    cbn [fst snd] in *; subst wd.
  { left. subst out. cbn. unfold after. rewrite <- app_assoc.
    do 2 eexists. split; [right; discriminate | reflexivity]. }
  right. split; [reflexivity |]. split; [reflexivity |].
  destruct (generateAndStoreKey_events (keygen su) keyPath w) as (evK & HtrK & HokK & HinK).
  destruct (generateAndStoreKey (keygen su) keyPath w) as [[key [e |]] wk];
    cbn [fst snd] in *.
  { exists evK. split; [assumption |]. split; [assumption |]. left.
    subst out. cbn. unfold after. rewrite <- app_assoc. eauto 6. }
  destruct (generateAndStoreCSR_events (csrgen su) csrPath (name flags) key wk)
    as (evC & HtrC & HokC & HC).
  destruct (generateAndStoreCSR (csrgen su) csrPath (name flags) key wk)
    as [[csrb [e |]] wc]; cbn [fst snd] in *.
  { exists (evK ++ evC)%list. split; [apply Forall_app; auto |].
    split; [apply in_or_app; auto |]. left.
    subst out. cbn. unfold after. rewrite <- app_assoc.
    do 3 eexists. split; [| reflexivity]. rewrite HtrC, HtrK, <- app_assoc. reflexivity. }
  destruct (HC eq_refl) as (Hname & Hcsr).
  destruct (String.eqb (tokenPath flags) "") eqn:Htp.
  { exists (evK ++ evC)%list. split; [apply Forall_app; auto |].
    split; [apply in_or_app; auto |]. left.
    subst out. cbn. unfold after. rewrite <- app_assoc.
    do 3 eexists. split; [| reflexivity]. rewrite HtrC, HtrK, <- app_assoc. reflexivity. }
  unfold ReadFile in Hout.
  destruct (ioutil_ReadFile (fs wc) (tokenPath flags)) as [tokenb | e] eqn:Htok.
  2: { exists (evK ++ evC)%list. split; [apply Forall_app; auto |].
       split; [apply in_or_app; auto |]. left.
       subst out. cbn. unfold after. rewrite <- app_assoc.
       do 3 eexists. split; [| reflexivity]. rewrite HtrC, HtrK, <- app_assoc. reflexivity. }
  unfold emit, ret in Hout. cbv beta iota in Hout.
  exists (evK ++ evC ++ [EDial (addr flags)])%list.
  split; [rewrite !Forall_app; repeat split; auto; repeat constructor |].
  split; [apply in_or_app; auto |].
  destruct (dial su) as [e |] eqn:Hdial.
  { left. subst out.
    exists (Error e), [], (after wc [EDial (addr flags)]).
    cbn. unfold after. cbn. rewrite <- !app_assoc. split; [| reflexivity].
    rewrite HtrC, HtrK, <- !app_assoc. reflexivity. }
  right.
  exists verify, keyPath, csrPath, crtPath, key,
    {| certifyReq := {| Identity := name flags; CertificateSigningRequest := csrb;
                        Token := tokenb |};
       crt := None |},
    {| fs := fs wc; clock := clock wc; reads := reads wc;
       trace := trace wc ++ [EDial (addr flags)] |}.
  cbn [fs trace crt certifyReq Identity CertificateSigningRequest Token].
  repeat split; auto.
  - rewrite HtrC, HtrK, <- !app_assoc. reflexivity.
  - subst out.
    destruct (loop flags crtPath verify rounds _ _) as [st' w']. reflexivity.
Qed.

End AgentStartup.

Section AgentRuns.
Context {ext : Externals}.

Lemma startupEvent_quiet (evs : list Event) :
  Forall startupEvent evs ->
  certifies evs = [] /\ forall code, ~ In (EExit code) evs.
Proof.
  induction 1 as [| e evs He _ [IH1 IH2]]; [split; [reflexivity | intros ? []] |].
  destruct e; cbn in He; try contradiction; cbn; (split; [assumption |]);
    intros code [Heq | Hin]; try discriminate; eapply IH2; eassumption.
Qed.

Lemma roundEvent_no_exit (crtPath : string) (req0 : CertifyRequest) (evs : list Event) :
  Forall (roundEvent crtPath req0) evs -> forall code, ~ In (EExit code) evs.
Proof.
  intros H code Hin. apply (proj1 (List.Forall_forall _ _) H) in Hin. exact Hin.
Qed.

(** The loop keeps the identity and the signing request of the request
    it holds. *)
Lemma loop_state_identity (flags : Flags) (crtPath : string) (verify : VerifyOptions)
    (rounds : list Round) (st : LoopState) (w : World) :
  Identity (certifyReq (fst (loop flags crtPath verify rounds st w))) =
    Identity (certifyReq st) /\
  CertificateSigningRequest (certifyReq (fst (loop flags crtPath verify rounds st w))) =
    CertificateSigningRequest (certifyReq st).
Proof.
  revert st w. induction rounds as [| r rounds IH]; intros st w; [auto |].
  rewrite loop_step.
  destruct (IH (snd (fst (loopBody flags crtPath verify r st w)))
               (snd (loopBody flags crtPath verify r st w))) as (Hi & Hc).
  destruct (loopBody_summary flags crtPath verify r st w) as (_ & _ & _ & Hreq & _).
  rewrite Hi, Hc, Hreq. apply nextRequest_same.
Qed.

End AgentRuns.

(** X24: a run of the agent in which the generation of the key succeeds
    ends in one of two ways.  Either the process has exited with status
    1, its last acts were a fatal log entry and the exit, and it has sent
    no request; or it has not exited: when the rounds that the outside is
    scripted for are over it is still in its loop, which has no way out,
    and it has sent one request in each of these rounds. *)
Theorem main_outcomes {ext : Externals}
    (flags : Flags) (su : Startup) (rounds : list Round) (w : World) (key : PrivateKey) :
  keygen su = Ok key ->
  exists evs,
    trace (snd (main flags su rounds w)) = (trace w ++ evs)%list /\
    ((fst (main flags su rounds w) = Exited 1 /\
      certifies evs = [] /\
      exists pre format args,
        evs = (pre ++ [ELog FatalLevel format args; EExit 1])%list)
     \/
     (exists st,
        fst (main flags su rounds w) = InLoop st /\
        length (certifies evs) = length rounds /\
        forall code, ~ In (EExit code) evs)).
Proof.
  intros _.
  destruct (main_cases flags su rounds w)
    as [(format & args & _ & ->)
       | (_ & _ & pre & Hpre & _ &
          [(format & args & w' & Hw' & ->)
          | (verify & keyPath & csrPath & crtPath & key' & st0 & w0 & _ & _ & Hw0 & _ & _ &
             _ & _ & _ & _ & _ & ->)])].
  - exists [ELog FatalLevel format args; EExit 1]. split; [reflexivity |]. left.
    repeat split. exists []. eauto.
  - exists (pre ++ [ELog FatalLevel format args; EExit 1])%list.
    cbn [fst snd after trace]. rewrite Hw', <- app_assoc. split; [reflexivity |]. left.
    split; [reflexivity |]. split; [| eauto].
    rewrite certifies_app. destruct (startupEvent_quiet pre Hpre) as (-> & _). reflexivity.
  - destruct (loop_trace flags crtPath verify rounds st0 w0) as (evs & Htr & Hlen).
    destruct (loop_events flags crtPath verify rounds st0 w0) as (evs' & Htr' & Hok).
    assert (evs' = evs) by (rewrite Htr in Htr'; eapply app_inv_head; eauto). subst evs'.
    destruct (startupEvent_quiet pre Hpre) as (Hq1 & Hq2).
    exists (pre ++ evs)%list. cbn [fst snd]. rewrite Htr, Hw0, <- app_assoc.
    split; [reflexivity |]. right. eexists. split; [reflexivity |]. split.
    + rewrite certifies_app, Hq1. exact Hlen.
    + intros code Hin. apply in_app_or in Hin. destruct Hin as [Hin | Hin].
      * exact (Hq2 code Hin).
      * exact (roundEvent_no_exit _ _ _ Hok code Hin).
Qed.

Lemma main_outcomes_witness :
  exists evs,
    trace (snd (main (ext := Sample.toy) Sample.flags Sample.startup
                  [Sample.round (Ok (Sample.response Sample.leafBytes [])) TimerFired]
                  SampleRuns.running)) =
      (trace SampleRuns.running ++ evs)%list /\
    length (certifies evs) = 1%nat.
Proof.
  destruct (main_outcomes (ext := Sample.toy) Sample.flags Sample.startup
              [Sample.round (Ok (Sample.response Sample.leafBytes [])) TimerFired]
              SampleRuns.running {| D := 42 |})
    as (evs & Htr & [(Hexit & _) | (st & _ & Hlen & _)]).
  - reflexivity.
  - vm_compute in Hexit. discriminate.
  - exists evs. split; assumption.
Defined.

(** X25: when the agent is in its loop, the trust anchors were loaded
    and the end-entity directory was accepted, the name and the token
    path are not empty, the dial succeeded, and the request it holds
    carries the configured name and the signing request that was created
    at start-up; before the first round it holds no certificate and the
    token it holds is what the token file contains. *)
Theorem main_in_loop {ext : Externals}
    (flags : Flags) (su : Startup) (rounds : list Round) (w : World) (st : LoopState) :
  fst (main flags su rounds w) = InLoop st ->
  snd (fst (loadVerifier (trustAnchorsPath flags) w)) = None /\
  snd (fst (checkEndEntityDir (dir flags) w)) = None /\
  String.eqb (name flags) "" = false /\
  String.eqb (tokenPath flags) "" = false /\
  dial su = None /\
  Identity (certifyReq st) = name flags /\
  (exists key,
     csrgen su (name flags) key = Ok (CertificateSigningRequest (certifyReq st))) /\
  (rounds = [] ->
   crt st = None /\
   ioutil_ReadFile (fs (snd (main flags su rounds w))) (tokenPath flags) =
     Ok (Token (certifyReq st))).
Proof.
  destruct (main_cases flags su rounds w)
    as [(format & args & _ & ->)
       | (Hv & Hd & pre & Hpre & _ &
          [(format & args & w' & Hw' & ->)
          | (verify & keyPath & csrPath & crtPath & key & st0 & w0 & _ & _ & Hw0 & Hcrt &
             Hid & Hname & Hcsr & Htp & Htok & Hdial & ->)])];
    cbn [fst snd]; try discriminate.
  intros H. injection H as <-.
  destruct (loop_state_identity flags crtPath verify rounds st0 w0) as (Hi & Hc).
  rewrite Hi, Hc. repeat split; auto; [eauto | |]; subst rounds; cbn; assumption.
Qed.

Lemma main_in_loop_witness :
  Identity (certifyReq SampleRuns.holding) = name Sample.flags /\
  dial Sample.startup = None.
Proof.
  destruct (main_in_loop (ext := Sample.toy) Sample.flags Sample.startup
              [Sample.round (Ok (Sample.response Sample.leafBytes [])) TimerFired]
              SampleRuns.running SampleRuns.holding)
    as (_ & _ & _ & _ & Hdial & Hid & _).
  - vm_compute. reflexivity.
  - split; assumption.
Defined.

(** X26: when the trust anchors do not load or the end-entity directory
    is refused, the agent logs one fatal entry and exits with status 1,
    and that is all it does: no key is generated, no file is written, the
    clock is not read. *)
Theorem main_refuses_before_generating {ext : Externals}
    (flags : Flags) (su : Startup) (rounds : list Round) (w : World) :
  snd (fst (loadVerifier (trustAnchorsPath flags) w)) <> None \/
  snd (fst (checkEndEntityDir (dir flags) w)) <> None ->
  exists format args,
    main flags su rounds w =
      (Exited 1, after w [ELog FatalLevel format args; EExit 1]).
Proof.
  intros H.
  destruct (main_cases flags su rounds w)
    as [(format & args & _ & Hm) | (Hv & Hd & _)]; [eauto |].
  destruct H; contradiction.
Qed.

Lemma main_refuses_before_generating_witness :
  exists format args,
    main (ext := Sample.toy) Sample.flags Sample.startup []
      (Sample.world (Sample.files (octal 7 0 0)) 0) =
      (Exited 1,
       after (Sample.world (Sample.files (octal 7 0 0)) 0)
         [ELog FatalLevel format args; EExit 1]).
Proof.
  apply (main_refuses_before_generating (ext := Sample.toy)).
  right. vm_compute. discriminate.
Defined.

(** ** The runs of the identity service *)

(** X27: what the main goroutine of the identity service does ends in one
    of two ways.  Either the process has exited with status 1, its last
    acts were a fatal log entry and the exit, and it has neither started
    the goroutine that serves nor stopped the server; or it has verified
    its issuer, started the admin goroutine, listened, and started the
    goroutine that serves, in this order, and after that it has logged
    the shutdown and stopped the server gracefully exactly when a signal
    arrived.  What the goroutines do beside it is not ordered with it. *)
Theorem service_outcomes {ext : Externals} {lib : IdentityService.Library}
    (flags : IdentityService.Flags) (stop : bool) (w : World) :
  exists evs,
    snd (IdentityService.main flags stop w) = after w evs /\
    ((fst (IdentityService.main flags stop w) = IdentityService.Exited 1 /\
      (exists pre format args,
         evs = (pre ++ [ELog FatalLevel format args; EExit 1])%list) /\
      (forall a, ~ In (EServe a) evs) /\
      ~ In EGracefulStop evs)
     \/
     (fst (IdentityService.main flags stop w) =
        (if stop then IdentityService.Stopped else IdentityService.Serving) /\
      exists c roots,
        evs =
          ([EVerifyIssuer c roots (expectedName flags);
            EAdminServer (IdentityService.adminAddr flags);
            EListen (IdentityService.addr flags);
            EServe (IdentityService.addr flags)] ++
           if stop
           then [ELog InfoLevel "shutting down gRPC server on %s"
                   [AStr (IdentityService.addr flags)];
                 EGracefulStop]
           else [])%list)).
Proof.
  destruct (service_main_cases flags stop w)
    as [(format & args & ->)
       | [(c & roots & err & format & args & _ & _ & ->)
         | [(c & roots & format & args & _ & _ & ->)
           | [(c & roots & format & args & _ & _ & ->)
             | (c & roots & _ & _ & ->)]]]];
    eexists; (split; [reflexivity |]); cbn [fst].
  - left. split; [reflexivity |]. split; [exists []; eauto |].
    split; [intros a Hin | intros Hin]; cbn in Hin; intuition discriminate.
  - left. split; [reflexivity |].
    split; [exists [EVerifyIssuer c roots (expectedName flags)]; eauto |].
    split; [intros a Hin | intros Hin]; cbn in Hin; intuition discriminate.
  - left. split; [reflexivity |].
    split; [exists [EVerifyIssuer c roots (expectedName flags)]; eauto |].
    split; [intros a Hin | intros Hin]; cbn in Hin; intuition discriminate.
  - left. split; [reflexivity |].
    split; [exists [EVerifyIssuer c roots (expectedName flags);
                    EAdminServer (IdentityService.adminAddr flags);
                    EListen (IdentityService.addr flags)]; eauto |].
    split; [intros a Hin | intros Hin]; cbn in Hin; intuition discriminate.
  - right. split; [reflexivity |]. eauto.
Qed.

Section ServiceDeadBranch.
Context {ext : Externals} {lib : IdentityService.Library}.

Lemma service_formats (flags : IdentityService.Flags) (stop : bool) (w : World) :
  exists evs,
    snd (IdentityService.main flags stop w) = after w evs /\
    forall lvl format args,
      In (ELog lvl format args) evs ->
      In format
        ["Invalid trust domain: %s";
         "Failed to read trust anchors from %s: %s";
         "Failed to read CA from %s: %s";
         "Failed to verify issuer credentials for '%s' with trust anchors: %s";
         "Failed to load kubeconfig: %s: %s";
         "Failed to initialize identity service: %s";
         "Failed to listen on %s: %s";
         "shutting down gRPC server on %s"].
Proof.
  remember (IdentityService.main flags stop w) as out eqn:Hout.
  unfold IdentityService.main, IdentityService.fatal, IdentityService.ReadPEMCreds,
    log_Fatalf, log_Infof, bind, emit, ReadFile, ret in Hout.
  destruct (IdentityService.idctl_NewTrustDomain _ _) as [dom | e];
    cbv beta iota zeta in Hout;
    [destruct (ioutil_ReadFile (fs w) (IdentityService.trustAnchorsPath flags))
       as [tab | e];
     [destruct (tls_DecodePEMCertPool tab) as [trustAnchors | e];
      cbv beta iota zeta in Hout;
      [destruct (IdentityService.tls_ReadPEMCreds (fs w) _ _) as [creds | e];
       cbv beta iota zeta in Hout;
       [destruct (IdentityService.tls_Crt_Verify (Crt_of creds) trustAnchors _)
          as [verr |];
        [| destruct (IdentityService.k8s_NewClientSet _) as [k8s | e];
           [destruct (IdentityService.idctl_NewK8sTokenValidator k8s dom) as [v | e];
            cbv beta iota zeta in Hout;
            [destruct (IdentityService.net_Listen "tcp" (IdentityService.addr flags))
               as [lis | e]; [destruct stop |] | ] | ]] | ] | ] | ] | ];
    subst out; cbn [fst snd fs clock reads trace]; unfold after;
    eexists; (split; [f_equal; rewrite <- !app_assoc; cbn [app]; reflexivity |]);
    intros lvl format args Hin; cbn in Hin;
    repeat (destruct Hin as [Heq | Hin];
            [try discriminate Heq; injection Heq as <- <- <-; cbn; auto 12 |]);
    destruct Hin.
Qed.

End ServiceDeadBranch.

(** X28: the identity service never logs that it failed to read the
    issuer credentials: the test after the construction of the CA looks
    at the error of the read before it, which is nil there. *)
Theorem service_never_logs_issuer_read {ext : Externals} {lib : IdentityService.Library}
    (flags : IdentityService.Flags) (stop : bool) (w : World) :
  exists evs,
    snd (IdentityService.main flags stop w) = after w evs /\
    forall lvl args,
      ~ In (ELog lvl "Failed to read issuer credentials from %s: %s" args) evs.
Proof.
  destruct (service_formats flags stop w) as (evs & Hsnd & Hf).
  exists evs. split; [assumption |]. intros lvl args Hin.
  apply Hf in Hin. cbn in Hin. intuition discriminate.
Qed.
